(** * Depth determination: depth-phase analyzer and region-depth lookup

    A shallow embedding of
      - [src/libs/seiscomp/seismology/autoloc/depthphases.{h,cpp}]
      - [src/libs/seiscomp/seismology/autoloc/regiondepth.{h,cpp}]
    and, of the Ms(20) processors,
      - [src/libs/seiscomp/processing/magnitudes/Ms_20.cpp]
        ([setup], [computeMagnitude])
      - [src/libs/seiscomp/processing/amplitudes/Ms20.cpp]
        ([measure_period], [timeWindowLength])

    Conventions of the embedding.
      - A C++ [double] is a primitive binary64 float ([PrimFloat.float]):
        every operation rounds to nearest even, as on a target that
        evaluates in double precision without contraction; [<], [<=], [==]
        are [ltb], [leb], [eqb] and follow IEEE 754 (every comparison with a
        NaN is false).
      - A C++ [int] is a [Z] (no wrap-around is reachable without a vector of
        more than 2^31 observations).
      - [std::string] is [string]; [std::vector] is [list];
        [std::map<std::string, std::string>] is [gmap string string].
      - A nullable pointer is an [option].
      - A call that an exception can leave has an [Outcome]: it returns, it
        throws a [std::exception], or it throws an object of another type.
      - An output parameter is an argument and a component of the result.
      - A [const double *] with its length is a [list float]; a counted
        [for] loop over [int] indices takes as fuel the number of rounds
        that its bounds allow.
      - The [for] loop of [gridSearchDepth] is driven by a float counter and
        need not terminate, so it takes fuel: [None] means that the loop was
        still running when the fuel ran out. *)

From Stdlib Require Import ZArith List Bool Lia Floats.
From stdpp Require Import base option strings gmap.
Import ListNotations.

Open Scope string_scope.

Set Warnings "-inexact-float".

(** The largest finite double, [std::numeric_limits<double>::max()]. *)
Definition DBL_MAX : float := 0x1.fffffffffffffp+1023%float.

(** [std::max(a, b)] and [std::min(a, b)] of [<algorithm>]:
    [max] is [(a < b) ? b : a] and [min] is [(b < a) ? b : a]. *)
Definition std_max (a b : float) : float := if (a <? b)%float then b else a.
Definition std_min (a b : float) : float := if (b <? a)%float then b else a.

(** ** Depth-phase analyzer ([depthphases.h], [depthphases.cpp]) *)

Module DepthPhases.

(** *** The catalog (anonymous namespace of [depthphases.cpp]) *)

Module DepthPhaseInfo.
Record t := {
  depthPhase : string;
  referencePhase : string
}.
End DepthPhaseInfo.

(** The table without its [{nullptr, nullptr}] sentinel: the sentinel only
    ends the scans, which the end of the list does here. *)
Definition depthPhaseTable : list DepthPhaseInfo.t :=
  [ {| DepthPhaseInfo.depthPhase := "pP";   DepthPhaseInfo.referencePhase := "P" |};
    {| DepthPhaseInfo.depthPhase := "sP";   DepthPhaseInfo.referencePhase := "P" |};
    {| DepthPhaseInfo.depthPhase := "pwP";  DepthPhaseInfo.referencePhase := "P" |};
    {| DepthPhaseInfo.depthPhase := "pS";   DepthPhaseInfo.referencePhase := "S" |};
    {| DepthPhaseInfo.depthPhase := "sS";   DepthPhaseInfo.referencePhase := "S" |};
    {| DepthPhaseInfo.depthPhase := "pPKP"; DepthPhaseInfo.referencePhase := "PKP" |};
    {| DepthPhaseInfo.depthPhase := "sPKP"; DepthPhaseInfo.referencePhase := "PKP" |} ].

(** The scan of [isDepthPhase]: return [true] at the first row whose
    [depthPhase] is [phase], [false] when the table is exhausted. *)
Fixpoint isDepthPhase_scan (table : list DepthPhaseInfo.t) (phase : string) : bool :=
  match table with
  | [] => false
  | info :: rest =>
      if String.eqb phase (DepthPhaseInfo.depthPhase info) then true
      else isDepthPhase_scan rest phase
  end.

Definition isDepthPhase (phase : string) : bool :=
  isDepthPhase_scan depthPhaseTable phase.

(** The scan of [getReferencePhase]; ["P"] is the fallback after the loop. *)
Fixpoint getReferencePhase_scan (table : list DepthPhaseInfo.t) (depthPhase : string) : string :=
  match table with
  | [] => "P"
  | info :: rest =>
      if String.eqb depthPhase (DepthPhaseInfo.depthPhase info)
      then DepthPhaseInfo.referencePhase info
      else getReferencePhase_scan rest depthPhase
  end.

Definition getReferencePhase (depthPhase : string) : string :=
  getReferencePhase_scan depthPhaseTable depthPhase.

(** *** Data model ([depthphases.h]) *)

Module DepthPhaseConfig.
Record t := {
  phases : list string;
  minDepth : float;
  maxDepth : float;
  minDistance : float;
  maxDistance : float;
  maxResidual : float;
  minPhaseCount : Z;
  weight : float;
  searchWindowBefore : float;
  searchWindowAfter : float
}.

(** The default member initializers of the struct. *)
Definition default : t := {|
  phases := ["pP"; "sP"; "pwP"];
  minDepth := 15;
  maxDepth := 700;
  minDistance := 30;
  maxDistance := 90;
  maxResidual := 3;
  minPhaseCount := 3;
  weight := 1.5;
  searchWindowBefore := 5;
  searchWindowAfter := 10
|}.
End DepthPhaseConfig.

Module DepthPhaseObservation.
Record t := {
  phase : string;
  referencePhase : string;
  stationCode : string;
  networkCode : string;
  observedTime : float;
  theoreticalTime : float;
  residual : float;
  timeDifferenceObs : float;
  timeDifferenceTheo : float;
  distance : float;
  weight : float;
  isValid : bool
}.
End DepthPhaseObservation.

(** Modelled from the spec: the travel-time record of the oracle
    ([TravelTime] of [seiscomp/seismology/ttt.h], which is not among the
    sources). Only the two members that the analyzer reads are kept. *)
Module TravelTime.
Record t := {
  phase : string;
  time : float
}.
End TravelTime.

Definition TravelTimeList := list TravelTime.t.

(** What a call does: it returns a value, or it is left by an exception.
    The one handler of the file is [catch ( const std::exception &e )], so
    the thrown objects fall into two kinds: a [std::exception] or an object
    of a class derived from it, which that handler catches, and an object
    of any other type, which it does not. *)
Inductive Outcome (A : Type) : Type :=
| Returns (value : A)
| ThrowsStdException
| ThrowsOther.

Arguments Returns {A} value.
Arguments ThrowsStdException {A}.
Arguments ThrowsOther {A}.

(** Modelled from the spec: the travel-time oracle
    ([TravelTimeTableInterface], not among the sources), section 6 of the
    specification.  [compute_all] is [compute(src, rcv)], which yields a
    list or a null pointer ([None]); [compute] is
    [compute(phase, src, rcv)], which yields a travel time or throws; it is
    the one call of the oracle that the file wraps in a handler.  The
    arguments are source latitude, longitude, depth and receiver latitude,
    longitude, elevation. *)
Record TravelTimeTableInterface := {
  compute_all : float -> float -> float -> float -> float -> float ->
                option TravelTimeList;
  compute : string -> float -> float -> float -> float -> float -> float ->
            Outcome TravelTime.t
}.

(** The analyzer object: its two data members.  [_ttt] is a smart pointer
    and may be null. *)
Record DepthPhaseAnalyzer := {
  _config : DepthPhaseConfig.t;
  _ttt : option TravelTimeTableInterface
}.

(** The constructor leaves [_config] default-initialized and [_ttt] null. *)
Definition new : DepthPhaseAnalyzer :=
  {| _config := DepthPhaseConfig.default; _ttt := None |}.

(** *** Operations ([depthphases.cpp]) *)

Definition setConfig (config : DepthPhaseConfig.t) (a : DepthPhaseAnalyzer)
  : DepthPhaseAnalyzer :=
  {| _config := config; _ttt := _ttt a |}.

Definition config (a : DepthPhaseAnalyzer) : DepthPhaseConfig.t := _config a.

(** [setTravelTimeTable(TravelTimeTableInterface *ttt)]: the result is the
    returned flag and the analyzer afterwards. *)
Definition setTravelTimeTable (ttt : option TravelTimeTableInterface)
    (a : DepthPhaseAnalyzer) : bool * DepthPhaseAnalyzer :=
  let a' := {| _config := _config a; _ttt := ttt |} in
  (match _ttt a' with Some _ => true | None => false end, a').

(** The inner loop of [computeDepthPhaseTimes]: is [tt.phase] one of the
    target phases? *)
Fixpoint includePhase (ttPhase : string) (targetPhases : list string) : bool :=
  match targetPhases with
  | [] => false
  | phase :: rest =>
      if String.eqb ttPhase phase then true else includePhase ttPhase rest
  end.

Fixpoint filterPhases (ttList : TravelTimeList) (targetPhases : list string)
    (result : TravelTimeList) : TravelTimeList :=
  match ttList with
  | [] => result
  | tt0 :: rest =>
      if includePhase (TravelTime.phase tt0) targetPhases
      then filterPhases rest targetPhases (result ++ [tt0])%list
      else filterPhases rest targetPhases result
  end.

Definition computeDepthPhaseTimes (a : DepthPhaseAnalyzer)
    (lat lon depth stationLat stationLon stationElev : float)
    (phases : list string) : TravelTimeList :=
  let result : TravelTimeList := [] in
  match _ttt a with
  | None => result
  | Some ttt =>
      match compute_all ttt lat lon depth stationLat stationLon stationElev with
      | None => result
      | Some ttList =>
          let targetPhases :=
            match phases with
            | [] => DepthPhaseConfig.phases (_config a)
            | _ => phases
            end in
          filterPhases ttList targetPhases result
      end
  end.

(** [computeDepthPhaseTimeDifference]: the two oracle calls are made in
    the [try] block, the depth phase first.  A [std::exception] thrown by
    either lands in the [catch ( const std::exception &e )] block, after
    which the function returns [-1.0]; an object of another type finds no
    handler and leaves the function.  The function itself never lets a
    [std::exception] out. *)
Definition computeDepthPhaseTimeDifference (a : DepthPhaseAnalyzer)
    (depthPhase : string)
    (lat lon depth stationLat stationLon stationElev : float) : Outcome float :=
  match _ttt a with
  | None => Returns (-1)%float
  | Some ttt =>
      let refPhase := getReferencePhase depthPhase in
      match compute ttt depthPhase lat lon depth stationLat stationLon stationElev with
      | ThrowsStdException => Returns (-1)%float
      | ThrowsOther => ThrowsOther
      | Returns ttDepth =>
          match compute ttt refPhase lat lon depth stationLat stationLon stationElev with
          | ThrowsStdException => Returns (-1)%float
          | ThrowsOther => ThrowsOther
          | Returns ttRef =>
              if (0 <? TravelTime.time ttDepth)%float
                 && (0 <? TravelTime.time ttRef)%float
              then Returns (TravelTime.time ttDepth - TravelTime.time ttRef)%float
              else Returns (-1)%float
          end
      end
  end.

(** The accumulation loop of [calculateMisfit]; the state is
    [(sumSquaredResiduals, sumWeights, count)]. *)
Fixpoint misfitLoop (observations : list DepthPhaseObservation.t)
    (sumSquaredResiduals sumWeights : float) (count : Z) : float * float * Z :=
  match observations with
  | [] => (sumSquaredResiduals, sumWeights, count)
  | obs :: rest =>
      if negb (DepthPhaseObservation.isValid obs)
      then misfitLoop rest sumSquaredResiduals sumWeights count
      else
        let residual := (DepthPhaseObservation.timeDifferenceObs obs
                         - DepthPhaseObservation.timeDifferenceTheo obs)%float in
        let weight := DepthPhaseObservation.weight obs in
        misfitLoop rest
          (sumSquaredResiduals + weight * residual * residual)%float
          (sumWeights + weight)%float
          (count + 1)%Z
  end.

(** [calculateMisfit]: the parameters [lat], [lon] and [depth] are not read
    by the body. *)
Definition calculateMisfit (a : DepthPhaseAnalyzer) (lat lon depth : float)
    (observations : list DepthPhaseObservation.t) : float :=
  let '(sumSquaredResiduals, sumWeights, count) :=
    misfitLoop observations 0 0 0 in
  if (count =? 0)%Z || (sumWeights =? 0)%float
  then DBL_MAX
  else sqrt (sumSquaredResiduals / sumWeights)%float.

(** The [for] loop of [gridSearchDepth], one iteration per unit of fuel;
    the state is [(depth, bestDepth, bestMisfit)]. *)
Fixpoint gridSearchLoop (fuel : nat) (a : DepthPhaseAnalyzer) (lat lon : float)
    (observations : list DepthPhaseObservation.t) (maxDepth step : float)
    (depth bestDepth bestMisfit : float) : option float :=
  match fuel with
  | O => None
  | S fuel' =>
      if (depth <=? maxDepth)%float then
        let misfit := calculateMisfit a lat lon depth observations in
        if (misfit <? bestMisfit)%float
        then gridSearchLoop fuel' a lat lon observations maxDepth step
               (depth + step)%float depth misfit
        else gridSearchLoop fuel' a lat lon observations maxDepth step
               (depth + step)%float bestDepth bestMisfit
      else Some bestDepth
  end.

Definition gridSearchDepth (fuel : nat) (a : DepthPhaseAnalyzer) (lat lon : float)
    (observations : list DepthPhaseObservation.t)
    (minDepth maxDepth step : float) : option float :=
  gridSearchLoop fuel a lat lon observations maxDepth step
    minDepth (-1)%float DBL_MAX.

(** The counting loop of [invertForDepth]. *)
Fixpoint countValid (observations : list DepthPhaseObservation.t) (validCount : Z) : Z :=
  match observations with
  | [] => validCount
  | obs :: rest =>
      if DepthPhaseObservation.isValid obs
      then countValid rest (validCount + 1)%Z
      else countValid rest validCount
  end.

(** [invertForDepth]: [None] when one of the three scans runs out of fuel,
    [Some d] when the function returns [d]. *)
Definition invertForDepth (fuel : nat) (a : DepthPhaseAnalyzer) (lat lon : float)
    (observations : list DepthPhaseObservation.t) (initialDepth : float)
  : option float :=
  match observations with
  | [] => Some (-1)%float
  | _ =>
  match _ttt a with
  | None => Some (-1)%float
  | Some _ =>
  let cfg := _config a in
  let validCount := countValid observations 0 in
  if (validCount <? DepthPhaseConfig.minPhaseCount cfg)%Z then Some (-1)%float
  else
    (* coarse grid search *)
    match gridSearchDepth fuel a lat lon observations
            (DepthPhaseConfig.minDepth cfg) (DepthPhaseConfig.maxDepth cfg) 10 with
    | None => None
    | Some bestDepth =>
    if (bestDepth <? 0)%float then Some (-1)%float
    else
      (* fine grid search around best depth *)
      let minSearch := std_max (DepthPhaseConfig.minDepth cfg) (bestDepth - 20)%float in
      let maxSearch := std_min (DepthPhaseConfig.maxDepth cfg) (bestDepth + 20)%float in
      match gridSearchDepth fuel a lat lon observations minSearch maxSearch 1 with
      | None => None
      | Some bestDepth =>
      if (bestDepth <? 0)%float then Some (-1)%float
      else
        (* very fine grid search *)
        let minSearch := std_max (DepthPhaseConfig.minDepth cfg) (bestDepth - 5)%float in
        let maxSearch := std_min (DepthPhaseConfig.maxDepth cfg) (bestDepth + 5)%float in
        gridSearchDepth fuel a lat lon observations minSearch maxSearch 0.5
      end
    end
  end
  end.

(** Does the walk [for (depth = minDepth; depth <= maxDepth; depth += step)]
    leave the loop within [fuel] iterations?  (A specification device: the
    trip count of [gridSearchLoop] does not depend on the misfits.) *)
Fixpoint scanEnds (fuel : nat) (maxDepth step depth : float) : bool :=
  match fuel with
  | O => false
  | S fuel' =>
      if (depth <=? maxDepth)%float
      then scanEnds fuel' maxDepth step (depth + step)%float
      else true
  end.

(** [setTravelTimeTable(const std::string &type, const std::string &model)].
    Modelled from the spec: [Create] is the registry
    [TravelTimeTableInterface::Create] (a null pointer for an unknown type
    name) and [setModel] is the oracle's [setModel(model)], which yields its
    flag and the oracle as it is afterwards (neither is among the sources).
    The result is the returned flag and the analyzer afterwards. *)
Definition setTravelTimeTable_named
    (Create : string -> option TravelTimeTableInterface)
    (setModel : TravelTimeTableInterface -> string -> bool * TravelTimeTableInterface)
    (type model : string) (a : DepthPhaseAnalyzer) : bool * DepthPhaseAnalyzer :=
  match Create type with
  | None => (false, {| _config := _config a; _ttt := None |})
  | Some ttt =>
      let '(ok, ttt') := setModel ttt model in
      if ok
      then (true, {| _config := _config a; _ttt := Some ttt' |})
      else (false, {| _config := _config a; _ttt := None |})
  end.

End DepthPhases.

(** ** Region-depth lookup ([regiondepth.h], [regiondepth.cpp]) *)

Module RegionDepth.

Module RegionDepthConfig.
Record t := {
  enabled : bool;
  regions : list string;
  globalDefaultDepth : float;
  globalMaxDepth : float
}.

Definition default : t := {|
  enabled := false;
  regions := [];
  globalDefaultDepth := 10;
  globalMaxDepth := 700
|}.
End RegionDepthConfig.

Module RegionDepthConstraints.
Record t := {
  regionName : string;
  defaultDepth : float;
  maxDepth : float;
  hasDefaultDepth : bool;
  hasMaxDepth : bool;
  matched : bool
}.

Definition default : t := {|
  regionName := "";
  defaultDepth := 10;
  maxDepth := 700;
  hasDefaultDepth := false;
  hasMaxDepth := false;
  matched := false
|}.
End RegionDepthConstraints.

(** Modelled from the spec: a feature of the region feature store
    ([Geo::GeoFeature], not among the sources), section 6 of the
    specification: [name()], [contains(lat, lon)] and [attributes()]. *)
Module GeoFeature.
Record t := {
  name : string;
  contains : float -> float -> bool;
  attributes : gmap string string
}.
End GeoFeature.

(** The lookup object: its three data members.  [_regions] holds pointers
    into the feature store, which the lookup never writes: the features
    themselves stand for them. *)
Record RegionDepthLookup := {
  _config : RegionDepthConfig.t;
  _regions : list GeoFeature.t;
  _initialized : bool
}.

Definition new : RegionDepthLookup :=
  {| _config := RegionDepthConfig.default; _regions := []; _initialized := false |}.

Definition setConfig (config : RegionDepthConfig.t) (l : RegionDepthLookup)
  : RegionDepthLookup :=
  {| _config := config; _initialized := false; _regions := [] |}.

Definition config (l : RegionDepthLookup) : RegionDepthConfig.t := _config l.

Definition isInitialized (l : RegionDepthLookup) : bool := _initialized l.

Definition regionCount (l : RegionDepthLookup) : nat := length (_regions l).

Definition regionNames (l : RegionDepthLookup) : list string :=
  map GeoFeature.name (_regions l).

(** [result] in [getConstraints] before the loop: a default-initialized
    [RegionDepthConstraints] whose [defaultDepth] and [maxDepth] are then set
    to the global defaults of the configuration and [matched] to false. *)
Definition globalDefaults (l : RegionDepthLookup) : RegionDepthConstraints.t := {|
  RegionDepthConstraints.regionName := "";
  RegionDepthConstraints.defaultDepth := RegionDepthConfig.globalDefaultDepth (_config l);
  RegionDepthConstraints.maxDepth := RegionDepthConfig.globalMaxDepth (_config l);
  RegionDepthConstraints.hasDefaultDepth := false;
  RegionDepthConstraints.hasMaxDepth := false;
  RegionDepthConstraints.matched := false
|}.

Section WithParser.

(** Modelled from the spec: [Core::fromString(double &, const std::string &)]
    of [seiscomp/core/strings.h], not among the sources: the parsed number,
    or [None] when the conversion fails. *)
Variable fromString : string -> option float.

Definition parseDepthAttribute (feature : GeoFeature.t) (attrName : string)
  : option float :=
  match GeoFeature.attributes feature !! attrName with
  | None => None
  | Some text => fromString text
  end.

(** The inner loop of [init]: the first feature named [regionName]. *)
Fixpoint findFeature (features : list GeoFeature.t) (regionName : string)
  : option GeoFeature.t :=
  match features with
  | [] => None
  | feature :: rest =>
      if String.eqb (GeoFeature.name feature) regionName then Some feature
      else findFeature rest regionName
  end.

(** The outer loop of [init] over [_config.regions]. *)
Fixpoint loadRegions (features : list GeoFeature.t) (names : list string)
    (regions : list GeoFeature.t) : list GeoFeature.t :=
  match names with
  | [] => regions
  | regionName :: rest =>
      match findFeature features regionName with
      | Some feature => loadRegions features rest (regions ++ [feature])%list
      | None => loadRegions features rest regions
      end
  end.

(** [init]: [features] is [GeoFeatureSetSingleton::getInstance().features()];
    the result is the returned flag and the lookup afterwards.  The two
    [parseDepthAttribute] calls of the loop only feed the log. *)
Definition init (features : list GeoFeature.t) (l : RegionDepthLookup)
  : bool * RegionDepthLookup :=
  let l0 := {| _config := _config l; _regions := []; _initialized := false |} in
  if negb (RegionDepthConfig.enabled (_config l0)) then (false, l0)
  else
    match RegionDepthConfig.regions (_config l0) with
    | [] => (false, l0)
    | _ =>
        let regions :=
          loadRegions features (RegionDepthConfig.regions (_config l0)) [] in
        let initialized := match regions with [] => false | _ => true end in
        (initialized,
         {| _config := _config l0; _regions := regions; _initialized := initialized |})
    end.

(** The body of the [if ( region->contains(location) )] branch. *)
Definition applyRegion (region : GeoFeature.t) (result : RegionDepthConstraints.t)
  : RegionDepthConstraints.t :=
  let result := {|
    RegionDepthConstraints.regionName := GeoFeature.name region;
    RegionDepthConstraints.defaultDepth := RegionDepthConstraints.defaultDepth result;
    RegionDepthConstraints.maxDepth := RegionDepthConstraints.maxDepth result;
    RegionDepthConstraints.hasDefaultDepth := RegionDepthConstraints.hasDefaultDepth result;
    RegionDepthConstraints.hasMaxDepth := RegionDepthConstraints.hasMaxDepth result;
    RegionDepthConstraints.matched := true |} in
  let result :=
    match parseDepthAttribute region "defaultDepth" with
    | Some depth => {|
        RegionDepthConstraints.regionName := RegionDepthConstraints.regionName result;
        RegionDepthConstraints.defaultDepth := depth;
        RegionDepthConstraints.maxDepth := RegionDepthConstraints.maxDepth result;
        RegionDepthConstraints.hasDefaultDepth := true;
        RegionDepthConstraints.hasMaxDepth := RegionDepthConstraints.hasMaxDepth result;
        RegionDepthConstraints.matched := RegionDepthConstraints.matched result |}
    | None => result
    end in
  match parseDepthAttribute region "maxDepth" with
  | Some depth => {|
      RegionDepthConstraints.regionName := RegionDepthConstraints.regionName result;
      RegionDepthConstraints.defaultDepth := RegionDepthConstraints.defaultDepth result;
      RegionDepthConstraints.maxDepth := depth;
      RegionDepthConstraints.hasDefaultDepth := RegionDepthConstraints.hasDefaultDepth result;
      RegionDepthConstraints.hasMaxDepth := true;
      RegionDepthConstraints.matched := RegionDepthConstraints.matched result |}
  | None => result
  end.

(** The loop of [getConstraints] over [_regions]. *)
Fixpoint scanRegions (regions : list GeoFeature.t) (lat lon : float)
    (result : RegionDepthConstraints.t) : RegionDepthConstraints.t :=
  match regions with
  | [] => result
  | region :: rest =>
      if GeoFeature.contains region lat lon
      then applyRegion region result  (* first match wins *)
      else scanRegions rest lat lon result
  end.

Definition getConstraints (l : RegionDepthLookup) (lat lon : float)
  : RegionDepthConstraints.t :=
  let result := globalDefaults l in
  if negb (RegionDepthConfig.enabled (_config l))
     || match _regions l with [] => true | _ => false end
  then result
  else scanRegions (_regions l) lat lon result.

Definition getDefaultDepth (l : RegionDepthLookup) (lat lon : float) : float :=
  RegionDepthConstraints.defaultDepth (getConstraints l lat lon).

Definition getMaxDepth (l : RegionDepthLookup) (lat lon : float) : float :=
  RegionDepthConstraints.maxDepth (getConstraints l lat lon).

End WithParser.

End RegionDepth.

(** ** The Ms(20) magnitude ([processing/magnitudes/Ms_20.cpp]) *)

Module MagnitudeProcessor_Ms_20.

Local Open Scope float_scope.

Definition DELTA_MIN : float := 20.
Definition DELTA_MAX : float := 160.

(** [#define DEPTH_MAX 100]: an [int] literal, converted on assignment. *)
Definition DEPTH_MAX : float := 100.

Definition PERIOD_MIN : float := 18.
Definition PERIOD_MAX : float := 22.

Definition ExpectedAmplitudeUnit : string := "nm".

(** The values of [MagnitudeProcessor::Status] that the file returns. *)
Inductive Status :=
| OK
| AmplitudeOutOfRange
| PeriodOutOfRange
| DistanceOutOfRange
| DepthOutOfRange
| InvalidAmplitudeUnit.

(** The five data members that [setup] writes and [computeMagnitude]
    reads. *)
Record t := {
  lowPer : float;
  upPer : float;
  minDistanceDeg : float;
  maxDistanceDeg : float;
  maxDepthKm : float
}.

(** [Settings::getDouble(key)]: the configured value, or [None] where it
    throws. *)
Record Settings := {
  getDouble : string -> option float
}.

(** [try { x = settings.getDouble(key); } catch ( ... ) {}] *)
Definition tryGetDouble (settings : Settings) (key : string) (x : float) : float :=
  match getDouble settings key with
  | Some value => value
  | None => x
  end.

Section WithBase.

(** The members of the base class [MagnitudeProcessor] that the file calls,
    and [log10] of [<cmath>]; none is among the sources, and the processor
    is parametrised on them.  [convertAmplitude] yields the converted
    amplitude, or [None] where it returns false. *)
Variable MagnitudeProcessor_setup : Settings -> bool.
Variable type : string.
Variable convertAmplitude : float -> string -> string -> option float.
Variable log10 : float -> float.

(** [setup]: the result is the returned flag and the processor afterwards. *)
Definition setup (settings : Settings) (m : t) : bool * t :=
  if negb (MagnitudeProcessor_setup settings) then (false, m)
  else
    let lowPer := PERIOD_MIN in
    let upPer := PERIOD_MAX in
    let minDistanceDeg := DELTA_MIN in
    let maxDistanceDeg := DELTA_MAX in
    let maxDepthKm := DEPTH_MAX in
    let lowPer :=
      tryGetDouble settings ("magnitudes." ++ type ++ ".lowerPeriod") lowPer in
    let upPer :=
      tryGetDouble settings ("magnitudes." ++ type ++ ".upperPeriod") upPer in
    let minDistanceDeg :=
      tryGetDouble settings ("magnitudes." ++ type ++ ".minDist") minDistanceDeg in
    let maxDistanceDeg :=
      tryGetDouble settings ("magnitudes." ++ type ++ ".maxDist") maxDistanceDeg in
    let maxDepthKm :=
      tryGetDouble settings ("magnitudes." ++ type ++ ".maxDepth") maxDepthKm in
    (* deprecated parameters *)
    let lowPer := tryGetDouble settings (type ++ ".lowerPeriod") lowPer in
    let upPer := tryGetDouble settings (type ++ ".upperPeriod") upPer in
    let minDistanceDeg :=
      tryGetDouble settings (type ++ ".minimumDistance") minDistanceDeg in
    let maxDistanceDeg :=
      tryGetDouble settings (type ++ ".maximumDistance") maxDistanceDeg in
    let maxDepthKm := tryGetDouble settings (type ++ ".maximumDepth") maxDepthKm in
    (true, {| lowPer := lowPer; upPer := upPer;
              minDistanceDeg := minDistanceDeg; maxDistanceDeg := maxDistanceDeg;
              maxDepthKm := maxDepthKm |}).

(** [computeMagnitude]: [value] is the output parameter; the result is the
    status and [value] afterwards.  The unnamed parameters (the signal to
    noise ratio, origin, sensor location, amplitude object and locale) are
    not read. *)
Definition computeMagnitude (m : t) (amplitude : float) (unit : string)
    (period delta depth : float) (value : float) : Status * float :=
  if amplitude <=? 0 then (AmplitudeOutOfRange, value)
  else if (period <? lowPer m) || (upPer m <? period)
  then (PeriodOutOfRange, value)
  else if (delta <? minDistanceDeg m) || (maxDistanceDeg m <? delta)
  then (DistanceOutOfRange, value)
  else
    (* Clip depth to 0 *)
    let depth := if depth <? 0 then 0 else depth in
    if maxDepthKm m <? depth then (DepthOutOfRange, value)
    else
      match convertAmplitude amplitude unit ExpectedAmplitudeUnit with
      | None => (InvalidAmplitudeUnit, value)
      | Some amplitude =>
          (OK, log10 (amplitude / period) + 1.66 * log10 delta + 0.3)
      end.

End WithBase.

End MagnitudeProcessor_Ms_20.

(** ** The Ms(20) amplitude ([processing/amplitudes/Ms20.cpp]) *)

Module AmplitudeProcessor_Ms_20.

Local Open Scope float_scope.

(** The conversion of an [int] to a [double]. *)
Definition double_of_int (i : Z) : float :=
  if (i <? 0)%Z then - of_uint63 (Uint63.of_Z (- i))
  else of_uint63 (Uint63.of_Z i).

(** [f[i]]; every read of a loop of [measure_period] is guarded by
    [0 <= i < n]. *)
Definition sample (f : list float) (i : Z) : float := nth (Z.to_nat i) f 0.

(** [for (ip = i; ip >= 0 && cond(f[ip]); ip--);]: the final [ip].  The
    body runs at most [i + 1] times, which is the fuel given below. *)
Fixpoint scanDown (cond : float -> bool) (f : list float) (fuel : nat) (ip : Z) : Z :=
  match fuel with
  | O => ip
  | S fuel' =>
      if (0 <=? ip)%Z && cond (sample f ip)
      then scanDown cond f fuel' (ip - 1)
      else ip
  end.

(** [for (in = i; in < n && cond(f[in]); in++);]: the final [in]; at most
    [n - i] rounds. *)
Fixpoint scanUp (cond : float -> bool) (n : Z) (f : list float) (fuel : nat) (i : Z) : Z :=
  match fuel with
  | O => i
  | S fuel' =>
      if (i <? n)%Z && cond (sample f i)
      then scanUp cond n f fuel' (i + 1)
      else i
  end.

Section WithFindAbsmax.

(** [find_absmax(n, f, i1, i2, offset)] of the amplitude processing
    library, not among the sources. *)
Variable find_absmax : Z -> list float -> Z -> Z -> float -> Z.

(** [measure_period]: [per] and [std] are the output parameters; the result
    is the returned flag with [*per] and [*std] afterwards.  [m] and [nm]
    are the list [m] and its length. *)
Definition measure_period (n : Z) (f : list float) (i0 : Z) (offset : float)
    (per std : float) : bool * float * float :=
  let f0 := sample f i0 in
  (* find zero crossings *)
  let ip1 := scanDown (fun x => 0 <=? (x - offset) * f0) f (Z.to_nat (i0 + 1)) i0 in
  let ip2 := scanDown (fun x => (x - offset) * f0 <? 0) f (Z.to_nat (ip1 + 1)) ip1 in
  let in1 := scanUp (fun x => 0 <=? (x - offset) * f0) n f (Z.to_nat (n - i0)) i0 in
  let in2 := scanUp (fun x => (x - offset) * f0 <? 0) n f (Z.to_nat (n - in1)) in1 in
  let wt := 0 in
  let pp := 0 in
  let m : list float := [] in
  let '(wt, pp, m) :=
    if (0 <=? ip2)%Z then
      let wt := wt + 0.5 in
      let pp := pp + 0.5 * double_of_int (ip1 - ip2) in
      let m := (m ++ [double_of_int (ip1 - ip2)])%list in
      let imax := find_absmax n f ip2 ip1 offset in
      let wt := wt + 1 in
      let pp := pp + double_of_int (i0 - imax) in
      let m := (m ++ [double_of_int (i0 - imax)])%list in
      (wt, pp, m)
    else (wt, pp, m) in
  let '(wt, pp, m) :=
    if (0 <=? ip1)%Z && (in1 <? n)%Z then
      let wt := wt + 1 in
      let pp := pp + double_of_int (in1 - ip1) in
      let m := (m ++ [double_of_int (in1 - ip1)])%list in
      (wt, pp, m)
    else (wt, pp, m) in
  let '(wt, pp, m) :=
    if (in2 <? n)%Z then
      let wt := wt + 0.5 in
      let pp := pp + 0.5 * double_of_int (in2 - in1) in
      let m := (m ++ [double_of_int (in2 - in1)])%list in
      let imax := find_absmax n f in1 in2 offset in
      let wt := wt + 1 in
      let pp := pp + double_of_int (imax - i0) in
      let m := (m ++ [double_of_int (imax - i0)])%list in
      (wt, pp, m)
    else (wt, pp, m) in
  let nm := Z.of_nat (length m) in
  (* compute standard deviation of period *)
  let std :=
    if (3 <=? nm)%Z then
      let avg := fold_left (fun avg x => avg + x) m 0 in
      let avg := avg / double_of_int nm in
      let sum := fold_left (fun sum x => sum + (x - avg) * (x - avg)) m 0 in
      2 * sqrt (sum / double_of_int (nm - 1))
    else 0 in
  if wt <? 0.9 then (false, per, std)
  else (true, 2 * pp / wt, std).

End WithFindAbsmax.

(** [timeWindowLength]: [signalEnd] is [_config.signalEnd] of the base
    class, which both constructors set to 3600 s. *)
Definition timeWindowLength (signalEnd : float) (distance_deg : float) : float :=
  let v_min := 3.5 in
  let distance_km := distance_deg * 111.195 in
  let windowLength := distance_km / v_min + 30 in
  if windowLength <? signalEnd then windowLength else signalEnd.

End AmplitudeProcessor_Ms_20.

(** ** Vocabulary for the binary64 arithmetic of [SpecFloat] *)

Module Binary64.

Local Open Scope Z_scope.

Abbreviation fexp64 := (fexp prec emax).

(** [SFcompare] on two finite floats of the same sign is the lexicographic
    comparison of (exponent, mantissa). *)
Definition lex_le (e1 : Z) (m1 : positive) (e2 : Z) (m2 : positive) : Prop :=
  e1 < e2 \/ (e1 = e2 /\ (m1 <= m2)%positive).

(** What [binary_round_aux] builds from the final mantissa and exponent. *)
Definition pack (sx : bool) (m e : Z) : spec_float :=
  match m with
  | Z0 => S754_zero sx
  | Zpos p => if e <=? emax - prec then S754_finite sx p e else S754_infinity sx
  | Zneg _ => S754_nan
  end.

(** A finite result of the sign [s] whose (exponent, mantissa) is at least
    that of [(e, m)], or the infinity of that sign. *)
Definition result_ge (s : bool) (m : positive) (e : Z) (R : spec_float) : Prop :=
  R = S754_infinity s
  \/ exists m' e', R = S754_finite s m' e' /\ lex_le e m e' m'.

Definition result_le (s : bool) (m : positive) (e : Z) (R : spec_float) : Prop :=
  R = S754_zero s
  \/ exists m' e', R = S754_finite s m' e' /\ lex_le e' m' e m.

Definition result_signed (s : bool) (R : spec_float) : Prop :=
  R = S754_zero s \/ R = S754_infinity s \/ exists m' e', R = S754_finite s m' e'.

(** A finite, positive double (a step of the grid search). *)
Definition finite_positive (c : float) : bool :=
  match Prim2SF c with
  | S754_finite false _ _ => true
  | _ => false
  end.

End Binary64.

(** ** Vocabulary of the two-run property (section 8, invariant 2) *)

Module TwoRuns.

Import DepthPhases.

(** Two observations are the same, or both are flagged invalid with the
    same weight and differ in their other fields. *)
Definition differWhereInvalid (o1 o2 : DepthPhaseObservation.t) : Prop :=
  o1 = o2
  \/ (DepthPhaseObservation.isValid o1 = false
      /\ DepthPhaseObservation.isValid o2 = false
      /\ DepthPhaseObservation.weight o1 = DepthPhaseObservation.weight o2).

(** Two observations are the same, or they have the same flag and the same
    weight, the flag is false or the weight is not positive, and they differ
    in their other fields. *)
Definition differWhereInvalidOrWeightless (o1 o2 : DepthPhaseObservation.t) : Prop :=
  o1 = o2
  \/ (DepthPhaseObservation.isValid o1 = DepthPhaseObservation.isValid o2
      /\ DepthPhaseObservation.weight o1 = DepthPhaseObservation.weight o2
      /\ (DepthPhaseObservation.isValid o1 = false
          \/ (DepthPhaseObservation.weight o1 <=? 0)%float = true)).

End TwoRuns.

(** ** Fixtures of the concrete scenarios (sections 8, S4 and S6) *)

Module Scenarios.

Import DepthPhases.

(** An oracle whose pP arrives [2 * depth] seconds after P. *)
Definition linearOracle : TravelTimeTableInterface := {|
  compute_all := fun _ _ _ _ _ _ => Some [];
  compute := fun phase _ _ depth _ _ _ =>
    if String.eqb phase "pP"
    then Returns {| TravelTime.phase := phase; TravelTime.time := 500 + 2 * depth |}
    else Returns {| TravelTime.phase := phase; TravelTime.time := 500 |}
|}.

(** An oracle whose every single-phase query throws a [std::exception]. *)
Definition throwingOracle : TravelTimeTableInterface := {|
  compute_all := fun _ _ _ _ _ _ => None;
  compute := fun _ _ _ _ _ _ _ => ThrowsStdException
|}.

(** An oracle whose every single-phase query throws an object that is not
    a [std::exception] (an [int], say). *)
Definition throwingOtherOracle : TravelTimeTableInterface := {|
  compute_all := fun _ _ _ _ _ _ => None;
  compute := fun _ _ _ _ _ _ _ => ThrowsOther
|}.

(** An oracle that returns the depth phases and throws an object that is
    not a [std::exception] on every other phase. *)
Definition referenceThrowingOracle : TravelTimeTableInterface := {|
  compute_all := fun _ _ _ _ _ _ => None;
  compute := fun phase _ _ _ _ _ _ =>
    if isDepthPhase phase
    then Returns {| TravelTime.phase := phase; TravelTime.time := 580 |}
    else ThrowsOther
|}.

(** A pP observation at one station with the given observed and stored
    theoretical pP-P time, weight and validity flag. *)
Definition observation (timeDifferenceObs timeDifferenceTheo weight : float)
    (isValid : bool) : DepthPhaseObservation.t := {|
  DepthPhaseObservation.phase := "pP";
  DepthPhaseObservation.referencePhase := "P";
  DepthPhaseObservation.stationCode := "STA";
  DepthPhaseObservation.networkCode := "NET";
  DepthPhaseObservation.observedTime := 0;
  DepthPhaseObservation.theoreticalTime := 0;
  DepthPhaseObservation.residual := timeDifferenceObs - timeDifferenceTheo;
  DepthPhaseObservation.timeDifferenceObs := timeDifferenceObs;
  DepthPhaseObservation.timeDifferenceTheo := timeDifferenceTheo;
  DepthPhaseObservation.distance := 60;
  DepthPhaseObservation.weight := weight;
  DepthPhaseObservation.isValid := isValid
|}.

(** The default configuration with another depth range. *)
Definition configRange (minDepth maxDepth : float) : DepthPhaseConfig.t := {|
  DepthPhaseConfig.phases := DepthPhaseConfig.phases DepthPhaseConfig.default;
  DepthPhaseConfig.minDepth := minDepth;
  DepthPhaseConfig.maxDepth := maxDepth;
  DepthPhaseConfig.minDistance := DepthPhaseConfig.minDistance DepthPhaseConfig.default;
  DepthPhaseConfig.maxDistance := DepthPhaseConfig.maxDistance DepthPhaseConfig.default;
  DepthPhaseConfig.maxResidual := DepthPhaseConfig.maxResidual DepthPhaseConfig.default;
  DepthPhaseConfig.minPhaseCount := DepthPhaseConfig.minPhaseCount DepthPhaseConfig.default;
  DepthPhaseConfig.weight := DepthPhaseConfig.weight DepthPhaseConfig.default;
  DepthPhaseConfig.searchWindowBefore :=
    DepthPhaseConfig.searchWindowBefore DepthPhaseConfig.default;
  DepthPhaseConfig.searchWindowAfter :=
    DepthPhaseConfig.searchWindowAfter DepthPhaseConfig.default
|}.

Definition analyzer (minDepth maxDepth : float) : DepthPhaseAnalyzer :=
  snd (setTravelTimeTable (Some linearOracle)
         (setConfig (configRange minDepth maxDepth) new)).

(** S4: observed pP-P times 80, 82 and 78 s, all valid, weight 1.0; the
    stored theoretical time is the oracle's value at the default initial
    depth of 33 km. *)
Definition S4_observations : list DepthPhaseObservation.t :=
  [ observation 80 66 1 true; observation 82 66 1 true; observation 78 66 1 true ].

(** Two lists that differ in the observed time of one valid observation of
    weight -1. *)
Definition negativeWeight_observations (timeDifferenceObs : float)
  : list DepthPhaseObservation.t :=
  [ observation 80 80 1 true; observation 82 80 1 true; observation 78 80 1 true;
    observation timeDifferenceObs 0 (-1) true ].

(** Three valid observations of weight 1 whose squared residual overflows. *)
Definition overflow_observations : list DepthPhaseObservation.t :=
  [ observation 0x1p+600 0 1 true; observation 0x1p+600 0 1 true;
    observation 0x1p+600 0 1 true ].

(** Two lists that differ in the observed time of one invalid observation. *)
Definition oneInvalid_observations (timeDifferenceObs : float)
  : list DepthPhaseObservation.t :=
  [ observation 80 80 1 true; observation 82 80 1 true; observation 78 80 1 true;
    observation timeDifferenceObs 0 1 false ].

Import RegionDepth.

(** A stand-in for [Core::fromString] on unsigned decimal integers. *)
Fixpoint parseDigits (text : string) (value : float) : option float :=
  match text with
  | EmptyString => Some value
  | String c rest =>
      let d := (Z.of_N (Ascii.N_of_ascii c) - 48)%Z in
      if (0 <=? d)%Z && (d <=? 9)%Z
      then parseDigits rest (value * 10 + of_uint63 (Uint63.of_Z d))%float
      else None
  end.

Definition fromString_digits (text : string) : option float :=
  match text with
  | EmptyString => None
  | _ => parseDigits text 0
  end.

(** A latitude/longitude box as a polygon test. *)
Definition box (latMin latMax lonMin lonMax : float) (lat lon : float) : bool :=
  (latMin <=? lat)%float && (lat <=? latMax)%float
  && (lonMin <=? lon)%float && (lon <=? lonMax)%float.

(** S6: two overlapping regions, "A" (maxDepth 35) and "B" (maxDepth 700). *)
Definition regionA : GeoFeature.t := {|
  GeoFeature.name := "A";
  GeoFeature.contains := box 30 40 (-100) (-90);
  GeoFeature.attributes := {[ "maxDepth" := "35" ]}
|}.

Definition regionB : GeoFeature.t := {|
  GeoFeature.name := "B";
  GeoFeature.contains := box 35 45 (-95) (-85);
  GeoFeature.attributes := {[ "maxDepth" := "700" ]}
|}.

Definition S6_config : RegionDepthConfig.t := {|
  RegionDepthConfig.enabled := true;
  RegionDepthConfig.regions := ["A"; "B"];
  RegionDepthConfig.globalDefaultDepth := 15;
  RegionDepthConfig.globalMaxDepth := 700
|}.

(** The feature store lists "B" first: the configured order decides. *)
Definition S6_features : list GeoFeature.t := [regionB; regionA].

Definition S6_lookup : RegionDepthLookup :=
  snd (init S6_features (RegionDepth.setConfig S6_config RegionDepth.new)).

End Scenarios.

(** ** Vocabulary and fixtures of the further properties *)

Module Reads.

Import DepthPhases.

(** Two observations agree on what the inversion reads: the validity flag
    and, for a valid observation, the weight and the two time differences. *)
Definition sameReadFields (o1 o2 : DepthPhaseObservation.t) : Prop :=
  DepthPhaseObservation.isValid o1 = DepthPhaseObservation.isValid o2
  /\ (DepthPhaseObservation.isValid o1 = true ->
      DepthPhaseObservation.weight o1 = DepthPhaseObservation.weight o2
      /\ DepthPhaseObservation.timeDifferenceObs o1
         = DepthPhaseObservation.timeDifferenceObs o2
      /\ DepthPhaseObservation.timeDifferenceTheo o1
         = DepthPhaseObservation.timeDifferenceTheo o2).

(** Two analyzers agree on what the inversion reads: the depth range, the
    minimum phase count, and whether an oracle is set. *)
Definition sameReadConfig (a1 a2 : DepthPhaseAnalyzer) : Prop :=
  DepthPhaseConfig.minDepth (_config a1) = DepthPhaseConfig.minDepth (_config a2)
  /\ DepthPhaseConfig.maxDepth (_config a1) = DepthPhaseConfig.maxDepth (_config a2)
  /\ DepthPhaseConfig.minPhaseCount (_config a1)
     = DepthPhaseConfig.minPhaseCount (_config a2)
  /\ (_ttt a1 = None <-> _ttt a2 = None).

End Reads.

Module Lifecycle.

Import RegionDepth.

(** The lookups a caller can obtain through the public interface: a fresh
    one, and what [setConfig] and [init] (over any feature store) leave. *)
Inductive Reachable : RegionDepthLookup -> Prop :=
| reach_new : Reachable new
| reach_setConfig config l : Reachable l -> Reachable (setConfig config l)
| reach_init features l : Reachable l -> Reachable (snd (init features l)).

(** Two features agree on what [getConstraints] reads of a feature at a
    point: the name, whether it contains the point, and what the two depth
    attributes parse to. *)
Definition sameReadRegion (fromString : string -> option float) (lat lon : float)
    (r1 r2 : GeoFeature.t) : Prop :=
  GeoFeature.name r1 = GeoFeature.name r2
  /\ GeoFeature.contains r1 lat lon = GeoFeature.contains r2 lat lon
  /\ parseDepthAttribute fromString r1 "defaultDepth"
     = parseDepthAttribute fromString r2 "defaultDepth"
  /\ parseDepthAttribute fromString r1 "maxDepth"
     = parseDepthAttribute fromString r2 "maxDepth".

End Lifecycle.

Module MoreScenarios.

Import DepthPhases.

(** An oracle that lists five phases for every geometry. *)
Definition listingOracle : TravelTimeTableInterface := {|
  compute_all := fun _ _ _ _ _ _ =>
    Some [ {| TravelTime.phase := "P";  TravelTime.time := 500 |};
           {| TravelTime.phase := "pP"; TravelTime.time := 580 |};
           {| TravelTime.phase := "PP"; TravelTime.time := 600 |};
           {| TravelTime.phase := "sP"; TravelTime.time := 610 |};
           {| TravelTime.phase := "S";  TravelTime.time := 900 |} ];
  compute := fun phase _ _ _ _ _ _ =>
    Returns {| TravelTime.phase := phase; TravelTime.time := 500 |}
|}.

Definition listingAnalyzer : DepthPhaseAnalyzer :=
  snd (setTravelTimeTable (Some listingOracle) new).

(** A registry that knows the single type "libtau", and a model selection
    that accepts the single model "iasp91". *)
Definition registry (type : string) : option TravelTimeTableInterface :=
  if String.eqb type "libtau" then Some Scenarios.linearOracle else None.

Definition selectModel (ttt : TravelTimeTableInterface) (model : string)
  : bool * TravelTimeTableInterface :=
  (String.eqb model "iasp91", ttt).

(** The observations of S4 with other station codes, distances and stored
    residuals. *)
Definition S4_relabelled : list DepthPhaseObservation.t :=
  map (fun obs => {|
    DepthPhaseObservation.phase := "sP";
    DepthPhaseObservation.referencePhase := "S";
    DepthPhaseObservation.stationCode := "XYZ";
    DepthPhaseObservation.networkCode := "QQ";
    DepthPhaseObservation.observedTime := 17;
    DepthPhaseObservation.theoreticalTime := 4;
    DepthPhaseObservation.residual := 1000;
    DepthPhaseObservation.timeDifferenceObs := DepthPhaseObservation.timeDifferenceObs obs;
    DepthPhaseObservation.timeDifferenceTheo := DepthPhaseObservation.timeDifferenceTheo obs;
    DepthPhaseObservation.distance := 1;
    DepthPhaseObservation.weight := DepthPhaseObservation.weight obs;
    DepthPhaseObservation.isValid := DepthPhaseObservation.isValid obs |})
    Scenarios.S4_observations.

Import RegionDepth.

(** Two disjoint regions, and a region whose maxDepth does not parse. *)
Definition regionWest : GeoFeature.t := {|
  GeoFeature.name := "west";
  GeoFeature.contains := Scenarios.box 0 10 0 10;
  GeoFeature.attributes := {[ "defaultDepth" := "5" ]}
|}.

Definition regionEast : GeoFeature.t := {|
  GeoFeature.name := "east";
  GeoFeature.contains := Scenarios.box 0 10 20 30;
  GeoFeature.attributes := {[ "maxDepth" := "60" ]}
|}.

Definition regionBroken : GeoFeature.t := {|
  GeoFeature.name := "broken";
  GeoFeature.contains := Scenarios.box 0 10 0 10;
  GeoFeature.attributes := {[ "maxDepth" := "deep"; "defaultDepth" := "5" ]}
|}.

(** A second feature named "A", after the first one in the store. *)
Definition regionA_again : GeoFeature.t := {|
  GeoFeature.name := "A";
  GeoFeature.contains := Scenarios.box 0 1 0 1;
  GeoFeature.attributes := {[ "maxDepth" := "20" ]}
|}.

(** [regionBroken] under another store: other attributes, the same reads. *)
Definition regionBroken_stripped : GeoFeature.t := {|
  GeoFeature.name := "broken";
  GeoFeature.contains := Scenarios.box 0 10 0 10;
  GeoFeature.attributes := {[ "defaultDepth" := "5"; "rank" := "1" ]}
|}.

Definition lookupOf (regions : list GeoFeature.t) : RegionDepthLookup := {|
  _config := Scenarios.S6_config;
  _regions := regions;
  _initialized := true
|}.

(** Fixtures of the Ms(20) processors: a unit conversion that accepts the
    expected unit only, a stand-in for [log10] (no property depends on its
    values), the IASPEI ranges, wider ranges, and a [find_absmax] that
    returns the start of its window. *)
Definition convertAmplitude_same (amplitude : float) (unit desired : string)
  : option float :=
  if String.eqb unit desired then Some amplitude else None.

Definition log10_standin (x : float) : float := x.

Definition iaspeiRanges : MagnitudeProcessor_Ms_20.t := {|
  MagnitudeProcessor_Ms_20.lowPer := 18;
  MagnitudeProcessor_Ms_20.upPer := 22;
  MagnitudeProcessor_Ms_20.minDistanceDeg := 20;
  MagnitudeProcessor_Ms_20.maxDistanceDeg := 160;
  MagnitudeProcessor_Ms_20.maxDepthKm := 100
|}.

Definition wideRanges : MagnitudeProcessor_Ms_20.t := {|
  MagnitudeProcessor_Ms_20.lowPer := 10;
  MagnitudeProcessor_Ms_20.upPer := 30;
  MagnitudeProcessor_Ms_20.minDistanceDeg := 5;
  MagnitudeProcessor_Ms_20.maxDistanceDeg := 170;
  MagnitudeProcessor_Ms_20.maxDepthKm := 700
|}.

Definition invertedPeriods : MagnitudeProcessor_Ms_20.t := {|
  MagnitudeProcessor_Ms_20.lowPer := 22;
  MagnitudeProcessor_Ms_20.upPer := 18;
  MagnitudeProcessor_Ms_20.minDistanceDeg := 20;
  MagnitudeProcessor_Ms_20.maxDistanceDeg := 160;
  MagnitudeProcessor_Ms_20.maxDepthKm := 100
|}.

(** Both the deprecated and the current key of the lower period are set. *)
Definition bothKeys : MagnitudeProcessor_Ms_20.Settings := {|
  MagnitudeProcessor_Ms_20.getDouble := fun key =>
    if String.eqb key "magnitudes.Ms_20.lowerPeriod" then Some 15%float
    else if String.eqb key "Ms_20.lowerPeriod" then Some 17%float
    else if String.eqb key "magnitudes.Ms_20.maxDepth" then Some 60%float
    else None
|}.

Definition find_absmax_first (n : Z) (f : list float) (i1 i2 : Z) (offset : float)
  : Z := i1.

End MoreScenarios.

(** * Properties *)

(** ** Binary64 arithmetic *)

(** *** Order on specification floats *)

Section SpecOrder.

Import Binary64.

Local Open Scope Z_scope.

Lemma SFcompare_antisym x y :
  SFcompare y x = option_map CompOpp (SFcompare x y).
Proof.
  destruct x as [sx | sx | | sx mx ex], y as [sy | sy | | sy my ey];
    try destruct sx; try destruct sy; try reflexivity; simpl;
    rewrite (Z.compare_antisym ex ey), (ZC4 my mx);
    destruct (ex ?= ey); simpl; try reflexivity;
    now destruct (Pos.compare_cont Eq mx my).
Qed.

Lemma SFleb_ltb_false x y : SFleb x y = true -> SFltb y x = false.
Proof.
  unfold SFleb, SFltb. rewrite (SFcompare_antisym x y).
  destruct (SFcompare x y) as [[] |]; simpl; congruence.
Qed.

Lemma SFltb_leb x y : SFltb x y = true -> SFleb x y = true.
Proof.
  unfold SFleb, SFltb. destruct (SFcompare x y) as [[] |]; congruence.
Qed.

Lemma SFcompare_refl x : x <> S754_nan -> SFcompare x x = Some Eq.
Proof.
  destruct x as [sx | sx | | sx mx ex]; try destruct sx; try reflexivity;
    try congruence; intros _; simpl;
    rewrite Z.compare_refl; fold (Pos.compare mx mx);
    now rewrite Pos.compare_refl.
Qed.

Lemma SFltb_irrefl x : SFltb x x = false.
Proof.
  destruct x as [sx | sx | | sx mx ex]; try destruct sx; try reflexivity;
    unfold SFltb; rewrite SFcompare_refl; congruence.
Qed.

Lemma SFleb_not_nan_l x y : SFleb x y = true -> x <> S754_nan.
Proof. intros H ->. discriminate. Qed.

Lemma SFleb_not_nan_r x y : SFleb x y = true -> y <> S754_nan.
Proof. intros H ->. destruct x; discriminate. Qed.

Lemma SFleb_refl x : x <> S754_nan -> SFleb x x = true.
Proof. intros H. unfold SFleb. now rewrite SFcompare_refl. Qed.

Lemma SFleb_finite_pos m1 e1 m2 e2 :
  SFleb (S754_finite false m1 e1) (S754_finite false m2 e2) = true
  <-> lex_le e1 m1 e2 m2.
Proof.
  unfold SFleb, lex_le; simpl. fold (Pos.compare m1 m2).
  destruct (Z.compare_spec e1 e2); [| split; auto; lia | split; [discriminate | lia]].
  destruct (Pos.compare_spec m1 m2); split; auto; try lia; try discriminate.
Qed.

Lemma SFleb_finite_neg m1 e1 m2 e2 :
  SFleb (S754_finite true m1 e1) (S754_finite true m2 e2) = true
  <-> lex_le e2 m2 e1 m1.
Proof.
  unfold SFleb, lex_le; simpl. fold (Pos.compare m1 m2).
  destruct (Z.compare_spec e1 e2); [| split; [discriminate | lia] | split; auto; lia ].
  destruct (Pos.compare_spec m1 m2); simpl; split; auto; try lia; try discriminate.
Qed.

Lemma lex_le_trans e1 m1 e2 m2 e3 m3 :
  lex_le e1 m1 e2 m2 -> lex_le e2 m2 e3 m3 -> lex_le e1 m1 e3 m3.
Proof. unfold lex_le. lia. Qed.

Lemma SFleb_trans x y z :
  SFleb x y = true -> SFleb y z = true -> SFleb x z = true.
Proof.
  destruct x as [sx | sx | | sx mx ex], y as [sy | sy | | sy my ey],
    z as [sz | sz | | sz mz ez];
    try destruct sx; try destruct sy; try destruct sz;
    try reflexivity; try discriminate; auto;
    rewrite ?SFleb_finite_pos, ?SFleb_finite_neg; intros H1 H2;
    eauto using lex_le_trans.
Qed.

End SpecOrder.

(** *** Rounding to binary64 *)

Section Rounding.

Import Binary64.

Local Open Scope Z_scope.

Lemma fexp64_eq k : fexp64 k = Z.max (k - 53) (-1074).
Proof. reflexivity. Qed.

Lemma digits2_pos_size p : digits2_pos p = Pos.size p.
Proof. induction p; simpl; congruence. Qed.

Lemma Zdigits2_log2 m : 0 < m -> Zdigits2 m = Z.log2 m + 1.
Proof.
  destruct m as [| p | p]; try lia. intros _. simpl.
  rewrite digits2_pos_size.
  destruct p; simpl; lia.
Qed.

Lemma Zdigits2_nonneg m : 0 <= Zdigits2 m.
Proof. destruct m; simpl; lia. Qed.

Lemma Zdigits2_le_mono a b : 0 <= a <= b -> Zdigits2 a <= Zdigits2 b.
Proof.
  intros [Ha Hab].
  destruct (Z.eq_dec a 0) as [-> | Hne]; [apply Zdigits2_nonneg |].
  rewrite !Zdigits2_log2 by lia.
  pose proof (Z.log2_le_mono a b Hab). lia.
Qed.

(** [2^(d-1) <= m < 2^d] for [d] the number of digits of [m > 0]. *)
Lemma Zdigits2_bounds m :
  0 < m -> 2 ^ (Zdigits2 m - 1) <= m < 2 ^ Zdigits2 m.
Proof.
  intros H. rewrite Zdigits2_log2 by lia.
  replace (Z.log2 m + 1 - 1) with (Z.log2 m) by lia.
  apply (Z.log2_spec m H).
Qed.

Lemma Zdigits2_mul_pow2 m k :
  0 < m -> 0 <= k -> Zdigits2 (m * 2 ^ k) = Zdigits2 m + k.
Proof.
  intros Hm Hk.
  assert (0 < 2 ^ k) by (apply Z.pow_pos_nonneg; lia).
  rewrite !Zdigits2_log2 by nia.
  rewrite Z.log2_mul_pow2 by lia. lia.
Qed.

Lemma shr_1_m r : 0 <= shr_m r -> shr_m (shr_1 r) = shr_m r / 2.
Proof.
  rewrite <- Z.div2_div.
  destruct r as [m r s]; simpl.
  destruct m as [| [p | p |] | p]; simpl; try reflexivity; lia.
Qed.

Lemma iter_shr_1_m p : forall r,
  0 <= shr_m r -> shr_m (SpecFloat.iter_pos shr_1 p r) = shr_m r / 2 ^ Z.pos p.
Proof.
  assert (Hdiv : forall a b, 0 <= a -> 0 < b -> 0 <= a / b)
    by (intros; apply Z.div_pos; lia).
  induction p as [p IH | p IH |]; intros r Hr; simpl SpecFloat.iter_pos.
  - assert (0 < 2 ^ Z.pos p) by (apply Z.pow_pos_nonneg; lia).
    assert (0 <= shr_m (shr_1 r)) by (rewrite shr_1_m; auto with zarith).
    assert (0 <= shr_m (SpecFloat.iter_pos shr_1 p (shr_1 r)))
      by (rewrite IH; auto).
    rewrite IH, IH, shr_1_m by assumption.
    rewrite !Z.div_div by lia.
    f_equal.
    replace (Z.pos p~1) with (1 + Z.pos p + Z.pos p) by lia.
    rewrite !Z.pow_add_r by lia. lia.
  - assert (0 < 2 ^ Z.pos p) by (apply Z.pow_pos_nonneg; lia).
    assert (0 <= shr_m (SpecFloat.iter_pos shr_1 p r)) by (rewrite IH; auto).
    rewrite IH, IH by assumption.
    rewrite !Z.div_div by lia.
    f_equal.
    replace (Z.pos p~0) with (Z.pos p + Z.pos p) by lia.
    rewrite !Z.pow_add_r by lia. lia.
  - now rewrite shr_1_m.
Qed.

Lemma shr_m_record_of_loc m l : shr_m (shr_record_of_loc m l) = m.
Proof. now destruct l as [| []]. Qed.

Lemma loc_of_shr_record_of_loc m l :
  loc_of_shr_record (shr_record_of_loc m l) = l.
Proof. now destruct l as [| []]. Qed.

(** [shr] divides the mantissa by [2^n] (rounding down) when [n] is
    positive, and does nothing otherwise. *)
Lemma shr_spec m l e n :
  0 <= m ->
  let r := shr (shr_record_of_loc m l) e n in
  shr_m (fst r) = m / 2 ^ Z.max 0 n
  /\ snd r = e + Z.max 0 n
  /\ (n <= 0 -> fst r = shr_record_of_loc m l).
Proof.
  intros Hm. destruct n as [| p | p]; simpl.
  - rewrite shr_m_record_of_loc, Z.div_1_r. repeat split; lia.
  - rewrite iter_shr_1_m by now rewrite shr_m_record_of_loc.
    rewrite shr_m_record_of_loc. repeat split; lia.
  - rewrite shr_m_record_of_loc, Z.div_1_r. repeat split; lia.
Qed.

Lemma round_nearest_even_bounds m l :
  m <= round_nearest_even m l <= m + 1.
Proof.
  destruct l as [| []]; simpl; try lia.
  destruct (Z.even m); lia.
Qed.

(** [binary_round_aux]: shift right to the exponent [fexp], round to a
    mantissa [m1] that is the quotient or its successor, shift again in case
    the rounding added a digit. *)
Lemma binary_round_aux_spec sx mx ex lx :
  0 <= mx ->
  let n1 := Z.max 0 (fexp64 (Zdigits2 mx + ex) - ex) in
  let e1 := ex + n1 in
  exists m1,
    mx / 2 ^ n1 <= m1 <= mx / 2 ^ n1 + 1
    /\ (lx = loc_Exact -> n1 = 0 -> m1 = mx)
    /\ let n2 := Z.max 0 (fexp64 (Zdigits2 m1 + e1) - e1) in
       binary_round_aux prec emax sx mx ex lx = pack sx (m1 / 2 ^ n2) (e1 + n2).
Proof.
  intros Hm. cbv zeta. unfold binary_round_aux, shr_fexp.
  pose proof (shr_spec mx lx ex (fexp64 (Zdigits2 mx + ex) - ex) Hm) as S1.
  cbv zeta in S1.
  destruct (shr (shr_record_of_loc mx lx) ex (fexp64 (Zdigits2 mx + ex) - ex))
    as [mrs' e'].
  cbn [fst snd] in S1. destruct S1 as (Hm' & He' & Hsame).
  set (m1 := round_nearest_even (shr_m mrs') (loc_of_shr_record mrs')).
  assert (Hq : 0 <= mx / 2 ^ Z.max 0 (fexp64 (Zdigits2 mx + ex) - ex)).
  { apply Z.div_pos; [lia |]. apply Z.pow_pos_nonneg; lia. }
  assert (Hm1 : shr_m mrs' <= m1 <= shr_m mrs' + 1)
    by apply round_nearest_even_bounds.
  exists m1. rewrite <- Hm'. split; [exact Hm1 | split].
  - intros -> Hn. unfold m1. rewrite (Hsame ltac:(lia)).
    now rewrite loc_of_shr_record_of_loc, shr_m_record_of_loc.
  - assert (H1 : 0 <= m1) by lia.
    pose proof (shr_spec m1 loc_Exact e' (fexp64 (Zdigits2 m1 + e') - e') H1) as S2.
    cbv zeta in S2.
    destruct (shr (shr_record_of_loc m1 loc_Exact) e' (fexp64 (Zdigits2 m1 + e') - e'))
      as [mrs'' e''].
    cbn [fst snd] in S2. destruct S2 as (Hm'' & He'' & _).
    rewrite Hm'', He'', He'. reflexivity.
Qed.

Lemma shl_align_spec mx ex ex' :
  (ex' < ex ->
   Z.pos (fst (shl_align mx ex ex')) = Z.pos mx * 2 ^ (ex - ex')
   /\ snd (shl_align mx ex ex') = ex')
  /\ (ex <= ex' -> shl_align mx ex ex' = (mx, ex)).
Proof.
  unfold shl_align. destruct (ex' - ex) as [| d | d] eqn:E.
  - split; [lia | reflexivity].
  - split; [lia | reflexivity].
  - split; [| lia]. intros _. cbn [fst snd]. split; [| reflexivity].
    change (Pos.iter xO mx d) with (shift_pos d mx).
    rewrite shift_pos_correct.
    replace (ex - ex') with (Z.pos d) by lia.
    change (Z.pow_pos 2 d) with (2 ^ Z.pos d). lia.
Qed.

Lemma bounded_spec m e :
  bounded prec emax m e = true ->
  fexp64 (Zdigits2 (Z.pos m) + e) = e /\ e <= 971.
Proof.
  unfold bounded, canonical_mantissa. intros H.
  apply andb_true_iff in H as [Hc He].
  apply Z.eqb_eq in Hc. apply Z.leb_le in He.
  split; [exact Hc | exact He].
Qed.

(** The second shift of [binary_round_aux] never loses a positive
    mantissa. *)
Lemma second_shift_pos m1 E :
  0 < m1 -> -1074 <= E ->
  0 < m1 / 2 ^ Z.max 0 (fexp64 (Zdigits2 m1 + E) - E).
Proof.
  intros Hm HE.
  pose proof (Zdigits2_bounds m1 Hm) as [Hlo _].
  pose proof (Zdigits2_log2 m1 Hm) as Hd.
  pose proof (Z.log2_nonneg m1).
  apply Z.div_str_pos. split; [apply Z.pow_pos_nonneg; lia |].
  etransitivity; [| exact Hlo].
  apply Z.pow_le_mono_r; [lia |].
  rewrite fexp64_eq. lia.
Qed.

Lemma Zdigits2_le_pow2 m k : 0 <= m <= 2 ^ k -> 0 <= k -> Zdigits2 m <= k + 1.
Proof.
  intros [H0 Hk] Hk0.
  destruct (Z.eq_dec m 0) as [-> | Hne]; [simpl; lia |].
  rewrite Zdigits2_log2 by lia.
  pose proof (Z.log2_le_mono m (2 ^ k) Hk) as H.
  rewrite Z.log2_pow2 in H by lia. lia.
Qed.

Lemma pack_signed s m e : 0 <= m -> result_signed s (pack s m e).
Proof.
  unfold result_signed, pack. destruct m as [| q | q]; [auto | | lia].
  intros _. destruct (e <=? emax - prec); eauto.
Qed.

Lemma binary_round_signed s p ez :
  result_signed s (binary_round prec emax s p ez).
Proof.
  unfold binary_round.
  destruct (shl_align p ez _) as [mz ez'].
  destruct (binary_round_aux_spec s (Z.pos mz) ez' loc_Exact) as (m1 & Hm1 & _ & ->);
    [lia |].
  apply pack_signed.
  assert (0 < 2 ^ Z.max 0 (fexp64 (Zdigits2 (Z.pos mz) + ez') - ez'))
    by (apply Z.pow_pos_nonneg; lia).
  assert (0 <= Z.pos mz / 2 ^ Z.max 0 (fexp64 (Zdigits2 (Z.pos mz) + ez') - ez'))
    by (apply Z.div_pos; lia).
  apply Z.div_pos; [lia |]. apply Z.pow_pos_nonneg; lia.
Qed.

(** Rounding a magnitude that is at least the representable [(m, e)]
    gives at least [(m, e)]. *)
Lemma binary_round_up s p ez m e :
  bounded prec emax m e = true ->
  ez <= e ->
  Z.pos m * 2 ^ (e - ez) <= Z.pos p ->
  result_ge s m e (binary_round prec emax s p ez).
Proof.
  intros Hb Hez Hle.
  apply bounded_spec in Hb as [Hc He].
  assert (Hk : 0 < 2 ^ (e - ez)) by (apply Z.pow_pos_nonneg; lia).
  assert (Hd : Zdigits2 (Z.pos m) + (e - ez) <= Zdigits2 (Z.pos p)).
  { rewrite <- Zdigits2_mul_pow2 by lia. apply Zdigits2_le_mono. lia. }
  unfold binary_round.
  change (Z.pos (digits2_pos p)) with (Zdigits2 (Z.pos p)).
  assert (HE : e <= fexp64 (Zdigits2 (Z.pos p) + ez)).
  { rewrite fexp64_eq in *. lia. }
  rewrite (proj2 (shl_align_spec p ez _)) by lia.
  destruct (binary_round_aux_spec s (Z.pos p) ez loc_Exact) as (m1 & Hm1 & _ & ->);
    [lia |].
  set (E := fexp64 (Zdigits2 (Z.pos p) + ez)) in *.
  replace (Z.max 0 (E - ez)) with (E - ez) in * by lia.
  replace (ez + (E - ez)) with E by lia.
  assert (HEmin : -1074 <= E) by (unfold E; rewrite fexp64_eq; lia).
  assert (Hn1 : 0 < 2 ^ (E - ez)) by (apply Z.pow_pos_nonneg; lia).
  (* the quotient is positive, and at least [m] when the exponent is [e] *)
  assert (Hq : 0 < Z.pos p / 2 ^ (E - ez)
               /\ (E = e -> Z.pos m <= Z.pos p / 2 ^ (E - ez))).
  { split.
    - apply Z.div_str_pos. split; [lia |].
      destruct (Z.eq_dec E e) as [-> | Hne]; [nia |].
      pose proof (Zdigits2_bounds (Z.pos p) ltac:(lia)) as [Hlo _].
      etransitivity; [| exact Hlo].
      apply Z.pow_le_mono_r; [lia |].
      unfold E in *. rewrite fexp64_eq in *.
      pose proof (Zdigits2_nonneg (Z.pos m)). lia.
    - intros ->. apply Z.div_le_lower_bound; lia. }
  destruct Hq as [Hq0 HqM].
  assert (H1 : 0 < m1) by lia.
  pose proof (second_shift_pos m1 E H1 HEmin) as Hpos.
  set (n2 := Z.max 0 (fexp64 (Zdigits2 m1 + E) - E)) in *.
  unfold result_ge, pack.
  destruct (m1 / 2 ^ n2) as [| q | q] eqn:Eq; [lia | | lia].
  destruct (E + n2 <=? emax - prec); [right | now left].
  exists q, (E + n2). split; [reflexivity |].
  unfold lex_le.
  destruct (Z.eq_dec (E + n2) e) as [Heq | Hne]; [right | left; lia].
  assert (n2 = 0) by lia. assert (E = e) by lia.
  split; [lia |].
  replace n2 with 0 in Eq by lia. rewrite Z.div_1_r in Eq.
  specialize (HqM ltac:(assumption)). lia.
Qed.

(** Rounding a magnitude below the representable [(m, e)] gives at most
    [(m, e)]. *)
Lemma binary_round_down s p ez m e :
  bounded prec emax m e = true ->
  ez <= e ->
  Z.pos p < Z.pos m * 2 ^ (e - ez) ->
  result_le s m e (binary_round prec emax s p ez).
Proof.
  intros Hb Hez Hlt.
  apply bounded_spec in Hb as [Hc He].
  assert (Hk : 0 < 2 ^ (e - ez)) by (apply Z.pow_pos_nonneg; lia).
  assert (Hd : Zdigits2 (Z.pos p) <= Zdigits2 (Z.pos m) + (e - ez)).
  { rewrite <- Zdigits2_mul_pow2 by lia. apply Zdigits2_le_mono. lia. }
  unfold binary_round.
  change (Z.pos (digits2_pos p)) with (Zdigits2 (Z.pos p)).
  set (E := fexp64 (Zdigits2 (Z.pos p) + ez)).
  assert (HE : E <= e) by (unfold E; rewrite fexp64_eq in *; lia).
  assert (HEmin : -1074 <= E) by (unfold E; rewrite fexp64_eq; lia).
  destruct (Z.lt_ge_cases E ez) as [Hlow | Hhigh].
  - (* the mantissa is shifted left: the result is exact *)
    destruct (shl_align_spec p ez E) as [[Hmz Hez'] _]; [lia |].
    destruct (shl_align p ez E) as [mz ez']. cbn [fst snd] in Hmz, Hez'. subst ez'.
    assert (Hdz : Zdigits2 (Z.pos mz) + E = Zdigits2 (Z.pos p) + ez).
    { rewrite Hmz, Zdigits2_mul_pow2 by lia. lia. }
    destruct (binary_round_aux_spec s (Z.pos mz) E loc_Exact)
      as (m1 & _ & Hexact & ->); [lia |].
    rewrite Hdz in *. fold E in Hexact |- *.
    replace (Z.max 0 (E - E)) with 0 in * by lia.
    rewrite (Hexact eq_refl eq_refl).
    replace (E + 0) with E by lia.
    rewrite Hdz. fold E.
    replace (Z.max 0 (E - E)) with 0 by lia.
    rewrite Z.div_1_r. unfold pack.
    replace (E + 0 <=? emax - prec) with true
      by (symmetry; apply Z.leb_le; unfold emax, prec; lia).
    right. exists mz, (E + 0). split; [reflexivity |]. left. lia.
  - rewrite (proj2 (shl_align_spec p ez E)) by lia.
    destruct (binary_round_aux_spec s (Z.pos p) ez loc_Exact)
      as (m1 & Hm1 & _ & ->); [lia |].
    fold E in Hm1 |- *.
    replace (Z.max 0 (E - ez)) with (E - ez) in * by lia.
    replace (ez + (E - ez)) with E by lia.
    assert (Hn1 : 0 < 2 ^ (E - ez)) by (apply Z.pow_pos_nonneg; lia).
    assert (Hq0 : 0 <= Z.pos p / 2 ^ (E - ez)) by (apply Z.div_pos; lia).
    (* the quotient has at most 53 digits *)
    assert (Hq53 : Z.pos p / 2 ^ (E - ez) < 2 ^ 53).
    { apply Z.div_lt_upper_bound; [lia |].
      rewrite <- Z.pow_add_r by lia.
      pose proof (Zdigits2_bounds (Z.pos p) ltac:(lia)) as [_ Hhi].
      eapply Z.lt_le_trans; [exact Hhi |].
      apply Z.pow_le_mono_r; [lia |].
      unfold E. rewrite fexp64_eq. lia. }
    assert (Hd1 : Zdigits2 m1 <= 54)
      by (apply (Zdigits2_le_pow2 m1 53); lia).
    set (n2 := Z.max 0 (fexp64 (Zdigits2 m1 + E) - E)).
    assert (Hn2 : 0 <= n2 <= 1) by (unfold n2; rewrite fexp64_eq; lia).
    assert (Hp2 : 0 < 2 ^ n2) by (apply Z.pow_pos_nonneg; lia).
    assert (Hr0 : 0 <= m1 / 2 ^ n2) by (apply Z.div_pos; lia).
    unfold result_le, pack.
    destruct (m1 / 2 ^ n2) as [| q | q] eqn:Eq; [now left | | lia].
    right.
    destruct (Z.eq_dec E e) as [HEe | HEe].
    + (* same exponent: the quotient is below [m], no digit is added *)
      assert (HqM : Z.pos p / 2 ^ (E - ez) < Z.pos m).
      { apply Z.div_lt_upper_bound; [lia |]. rewrite HEe. lia. }
      assert (Hdm1 : Zdigits2 m1 <= Zdigits2 (Z.pos m))
        by (apply Zdigits2_le_mono; lia).
      assert (n2 = 0) by (unfold n2; rewrite fexp64_eq in *; lia).
      replace n2 with 0 in *. rewrite Z.div_1_r in Eq.
      replace (E + 0 <=? emax - prec) with true
        by (symmetry; apply Z.leb_le; unfold emax, prec; lia).
      exists q, (E + 0). split; [reflexivity |]. right. split; [lia | lia].
    + replace (E + n2 <=? emax - prec) with true
        by (symmetry; apply Z.leb_le; unfold emax, prec; lia).
      exists q, (E + n2). split; [reflexivity |].
      destruct (Z.eq_dec (E + n2) e) as [Heq | Hne]; [right | left; lia].
      split; [exact Heq |].
      (* [(m, e)] is normal, so its mantissa is at least 2^52 *)
      assert (Hdm : Zdigits2 (Z.pos m) = 53) by (rewrite fexp64_eq in Hc; lia).
      pose proof (Zdigits2_bounds (Z.pos m) ltac:(lia)) as [Hlo _].
      rewrite Hdm in Hlo. change (2 ^ (53 - 1)) with 4503599627370496 in Hlo.
      assert (n2 = 1) by lia. replace n2 with 1 in Eq.
      change (2 ^ 53) with 9007199254740992 in Hq53.
      change (2 ^ 1) with 2 in Eq.
      assert (m1 / 2 <= 4503599627370496)
        by (apply Z.div_le_upper_bound; lia).
      lia.
Qed.

End Rounding.

(** *** Adding and subtracting a positive finite number *)

Section AddPositive.

Import Binary64.

Local Open Scope Z_scope.

Lemma shl_align_fst mx ex ez :
  ez <= ex -> Z.pos (fst (shl_align mx ex ez)) = Z.pos mx * 2 ^ (ex - ez).
Proof.
  intros H. destruct (Z.eq_dec ez ex) as [-> | Hne].
  - rewrite (proj2 (shl_align_spec mx ex ex)) by lia.
    rewrite Z.sub_diag. simpl. lia.
  - now apply shl_align_spec; lia.
Qed.

Lemma result_ge_leb_pos m e R :
  result_ge false m e R -> SFleb (S754_finite false m e) R = true.
Proof.
  intros [-> | (m' & e' & -> & H)]; [reflexivity |].
  now apply SFleb_finite_pos.
Qed.

Lemma result_ge_leb_neg m e R :
  result_ge true m e R -> SFleb R (S754_finite true m e) = true.
Proof.
  intros [-> | (m' & e' & -> & H)]; [reflexivity |].
  now apply SFleb_finite_neg.
Qed.

Lemma result_le_leb_pos m e R :
  result_le false m e R -> SFleb R (S754_finite false m e) = true.
Proof.
  intros [-> | (m' & e' & -> & H)]; [reflexivity |].
  now apply SFleb_finite_pos.
Qed.

Lemma result_le_leb_neg m e R :
  result_le true m e R -> SFleb (S754_finite true m e) R = true.
Proof.
  intros [-> | (m' & e' & -> & H)]; [reflexivity |].
  now apply SFleb_finite_neg.
Qed.

Lemma result_signed_pos_above m e R :
  result_signed false R -> SFleb (S754_finite true m e) R = true.
Proof. intros [-> | [-> | (m' & e' & ->)]]; reflexivity. Qed.

Lemma result_signed_neg_below m e R :
  result_signed true R -> SFleb R (S754_finite false m e) = true.
Proof. intros [-> | [-> | (m' & e' & ->)]]; reflexivity. Qed.

(** [x <= x + c] for [c] finite and positive and [x] not a NaN. *)
Lemma SFadd_positive_ge X mc ec :
  valid_binary X = true -> X <> S754_nan ->
  SFleb X (SF64add X (S754_finite false mc ec)) = true.
Proof.
  intros Hv Hnan.
  destruct X as [sx | sx | | sx mx ex]; [| | congruence |].
  - reflexivity.
  - now destruct sx.
  - unfold SF64add, SFadd. cbn [valid_binary] in Hv.
    set (ez := Z.min ex ec).
    pose proof (shl_align_fst mx ex ez ltac:(lia)) as HX.
    set (MX := fst (shl_align mx ex ez)) in *.
    set (MC := fst (shl_align mc ec ez)).
    destruct sx; cbn [cond_Zopp].
    + destruct (- Z.pos MX + Z.pos MC) as [| q | q] eqn:Ez; cbn [binary_normalize].
      * reflexivity.
      * apply result_signed_pos_above, binary_round_signed.
      * apply result_le_leb_neg, binary_round_down; [exact Hv | lia | lia].
    + change (Z.pos MX + Z.pos MC) with (Z.pos (MX + MC)). cbn [binary_normalize].
      apply result_ge_leb_pos, binary_round_up; [exact Hv | lia | lia].
Qed.

(** [x - c <= x] for [c] finite and positive and [x] not a NaN. *)
Lemma SFsub_positive_le X mc ec :
  valid_binary X = true -> X <> S754_nan ->
  SFleb (SF64sub X (S754_finite false mc ec)) X = true.
Proof.
  intros Hv Hnan.
  destruct X as [sx | sx | | sx mx ex]; [| | congruence |].
  - now destruct sx.
  - now destruct sx.
  - unfold SF64sub, SFsub. cbn [valid_binary] in Hv.
    set (ez := Z.min ex ec).
    pose proof (shl_align_fst mx ex ez ltac:(lia)) as HX.
    set (MX := fst (shl_align mx ex ez)) in *.
    set (MC := fst (shl_align mc ec ez)).
    destruct sx; cbn [cond_Zopp].
    + change (- Z.pos MX - Z.pos MC) with (Z.neg (MX + MC)). cbn [binary_normalize].
      apply result_ge_leb_neg, binary_round_up; [exact Hv | lia | lia].
    + destruct (Z.pos MX - Z.pos MC) as [| q | q] eqn:Ez; cbn [binary_normalize].
      * reflexivity.
      * apply result_le_leb_pos, binary_round_down; [exact Hv | lia | lia].
      * apply result_signed_neg_below, binary_round_signed.
Qed.

End AddPositive.

(** *** The same facts on primitive floats *)

Section PrimOrder.

Import Binary64.

Local Open Scope float_scope.

Lemma leb_not_nan_l x y : (x <=? y) = true -> Prim2SF x <> S754_nan.
Proof. rewrite leb_spec. apply SFleb_not_nan_l. Qed.

Lemma leb_not_nan_r x y : (x <=? y) = true -> Prim2SF y <> S754_nan.
Proof. rewrite leb_spec. apply SFleb_not_nan_r. Qed.

Lemma leb_refl x y : (x <=? y) = true -> (x <=? x) = true.
Proof.
  intros H. rewrite leb_spec. apply SFleb_refl. exact (leb_not_nan_l x y H).
Qed.

Lemma leb_refl_r x y : (x <=? y) = true -> (y <=? y) = true.
Proof.
  intros H. rewrite leb_spec. apply SFleb_refl. exact (leb_not_nan_r x y H).
Qed.

Lemma leb_trans x y z : (x <=? y) = true -> (y <=? z) = true -> (x <=? z) = true.
Proof. rewrite !leb_spec. apply SFleb_trans. Qed.

Lemma ltb_leb x y : (x <? y) = true -> (x <=? y) = true.
Proof. rewrite ltb_spec, leb_spec. apply SFltb_leb. Qed.

Lemma leb_ltb_false x y : (x <=? y) = true -> (y <? x) = false.
Proof. rewrite ltb_spec, leb_spec. apply SFleb_ltb_false. Qed.

Lemma ltb_irrefl x : (x <? x) = false.
Proof. rewrite ltb_spec. apply SFltb_irrefl. Qed.

Lemma add_positive_ge x c :
  finite_positive c = true -> Prim2SF x <> S754_nan -> (x <=? x + c) = true.
Proof.
  unfold finite_positive. intros Hc Hx.
  rewrite leb_spec, add_spec.
  destruct (Prim2SF c) as [| | | [] mc ec]; try discriminate.
  apply SFadd_positive_ge; [apply Prim2SF_valid | exact Hx].
Qed.

Lemma sub_positive_le x c :
  finite_positive c = true -> Prim2SF x <> S754_nan -> (x - c <=? x) = true.
Proof.
  unfold finite_positive. intros Hc Hx.
  rewrite leb_spec, sub_spec.
  destruct (Prim2SF c) as [| | | [] mc ec]; try discriminate.
  apply SFsub_positive_le; [apply Prim2SF_valid | exact Hx].
Qed.

End PrimOrder.

(** ** The depth-phase catalog *)

Section Catalog.

Import DepthPhases.

(** Every value that [getReferencePhase] can return. *)
Lemma getReferencePhase_range (p : string) :
  getReferencePhase p = "P" \/ getReferencePhase p = "S" \/ getReferencePhase p = "PKP".
Proof.
  unfold getReferencePhase, depthPhaseTable; simpl.
  repeat match goal with
         | |- context [String.eqb ?a ?b] => destruct (String.eqb a b); auto
         end.
Qed.

(** C8: a reference phase is never a depth phase: for every string [p],
    [isDepthPhase (getReferencePhase p)] is false, so no depth-phase name is
    a value of [getReferencePhase]; and the four catalog lookups of scenario
    S2 give true, false, "PKP" and "P". *)
Theorem C8_reference_phases_are_not_depth_phases :
  (forall p : string, isDepthPhase (getReferencePhase p) = false)
  /\ (forall p q : string, isDepthPhase q = true -> getReferencePhase p <> q)
  /\ isDepthPhase "pP" = true
  /\ isDepthPhase "P" = false
  /\ getReferencePhase "sPKP" = "PKP"
  /\ getReferencePhase "unknown" = "P".
Proof.
  assert (H : forall p : string, isDepthPhase (getReferencePhase p) = false).
  { intros p.
    destruct (getReferencePhase_range p) as [-> | [-> | ->]]; reflexivity. }
  repeat split; try reflexivity; try exact H.
  intros p q Hq E. subst q. rewrite H in Hq. discriminate.
Qed.

(** "P", the reference phase of "sP", is not the depth phase "pP". *)
Lemma C8_witness : getReferencePhase "sP" <> "pP".
Proof.
  pose proof C8_reference_phases_are_not_depth_phases as (_ & H & _).
  exact (H "sP" "pP" eq_refl).
Defined.

End Catalog.

(** ** The analyzer without an oracle, and the time difference *)

Section Oracle.

Import DepthPhases.

Open Scope float_scope.

Lemma invertForDepth_no_oracle fuel a lat lon observations initialDepth :
  _ttt a = None ->
  invertForDepth fuel a lat lon observations initialDepth = Some (-1).
Proof.
  intros H. unfold invertForDepth. rewrite H. destruct observations; reflexivity.
Qed.

(** C7: [computeDepthPhaseTimeDifference] returns the depth-phase time
    minus the reference-phase time when the oracle returns both and both
    are positive; it returns -1 when no oracle is configured, when a time is
    not positive, and when an oracle call throws a [std::exception], which
    is caught.  An object of another type thrown by an oracle call is not
    caught: it leaves the function, which then returns nothing.  The depth
    phase is queried first, and the reference phase only when that call
    returned; the function never lets a [std::exception] out. *)
Theorem C7_time_difference_minus_one_or_propagated
    (a : DepthPhaseAnalyzer) (depthPhase : string)
    (lat lon depth stationLat stationLon stationElev : float) :
  let result := computeDepthPhaseTimeDifference a depthPhase
                  lat lon depth stationLat stationLon stationElev in
  (* no oracle *)
  (_ttt a = None -> result = Returns (-1))
  /\ (forall ttt, _ttt a = Some ttt ->
      let ttDepth := compute ttt depthPhase
                       lat lon depth stationLat stationLon stationElev in
      let ttRef := compute ttt (getReferencePhase depthPhase)
                     lat lon depth stationLat stationLon stationElev in
      (* a std::exception of the depth-phase call, or of the
         reference-phase call after the first one returned: caught *)
      (ttDepth = ThrowsStdException -> result = Returns (-1))
      /\ (forall td, ttDepth = Returns td -> ttRef = ThrowsStdException ->
          result = Returns (-1))
      (* an object of another type: not caught *)
      /\ (ttDepth = ThrowsOther -> result = ThrowsOther)
      /\ (forall td, ttDepth = Returns td -> ttRef = ThrowsOther ->
          result = ThrowsOther)
      /\ (forall td tr, ttDepth = Returns td -> ttRef = Returns tr ->
          (* both times positive: their difference *)
          ((0 <? TravelTime.time td) = true -> (0 <? TravelTime.time tr) = true ->
           result = Returns (TravelTime.time td - TravelTime.time tr))
          (* otherwise -1 *)
          /\ ((0 <? TravelTime.time td) = false \/ (0 <? TravelTime.time tr) = false ->
              result = Returns (-1))))
  /\ result <> ThrowsStdException.
Proof.
  cbv zeta. unfold computeDepthPhaseTimeDifference.
  split; [| split].
  - intros ->. reflexivity.
  - intros ttt ->.
    split; [| split; [| split; [| split]]].
    + intros ->. reflexivity.
    + intros td -> ->. reflexivity.
    + intros ->. reflexivity.
    + intros td -> ->. reflexivity.
    + intros td tr -> ->. split.
      * intros -> ->. reflexivity.
      * intros [-> | ->]; [reflexivity |].
        rewrite andb_false_r. reflexivity.
  - destruct (_ttt a) as [ttt |]; [| discriminate].
    destruct (compute ttt depthPhase _ _ _ _ _ _) as [td | |]; try discriminate.
    destruct (compute ttt (getReferencePhase depthPhase) _ _ _ _ _ _) as [tr | |];
      try discriminate.
    destruct (_ && _); discriminate.
Qed.

(** The scenario oracle: pP - P at 40 km is 80 s; an oracle that throws a
    [std::exception] and a missing oracle give -1; an oracle that throws
    another object lets it through, on the first call or on the second. *)
Lemma C7_witness :
  computeDepthPhaseTimeDifference (Scenarios.analyzer 0 100) "pP" 0 0 40 10 10 0
  = Returns 80
  /\ computeDepthPhaseTimeDifference
       (snd (setTravelTimeTable (Some Scenarios.throwingOracle) new))
       "pP" 0 0 40 10 10 0 = Returns (-1)
  /\ computeDepthPhaseTimeDifference new "pP" 0 0 40 10 10 0 = Returns (-1)
  /\ computeDepthPhaseTimeDifference
       (snd (setTravelTimeTable (Some Scenarios.throwingOtherOracle) new))
       "pP" 0 0 40 10 10 0 = ThrowsOther
  /\ computeDepthPhaseTimeDifference
       (snd (setTravelTimeTable (Some Scenarios.referenceThrowingOracle) new))
       "pP" 0 0 40 10 10 0 = ThrowsOther.
Proof.
  split; [| split; [| split; [| split]]].
  - pose proof (C7_time_difference_minus_one_or_propagated
                  (Scenarios.analyzer 0 100) "pP" 0 0 40 10 10 0) as (_ & H & _).
    specialize (H Scenarios.linearOracle eq_refl) as (_ & _ & _ & _ & H).
    specialize (H _ _ eq_refl eq_refl) as [H _].
    exact (H eq_refl eq_refl).
  - pose proof (C7_time_difference_minus_one_or_propagated
                  (snd (setTravelTimeTable (Some Scenarios.throwingOracle) new))
                  "pP" 0 0 40 10 10 0) as (_ & H & _).
    specialize (H Scenarios.throwingOracle eq_refl) as (H & _).
    exact (H eq_refl).
  - pose proof (C7_time_difference_minus_one_or_propagated
                  new "pP" 0 0 40 10 10 0) as (H & _).
    exact (H eq_refl).
  - pose proof (C7_time_difference_minus_one_or_propagated
                  (snd (setTravelTimeTable (Some Scenarios.throwingOtherOracle) new))
                  "pP" 0 0 40 10 10 0) as (_ & H & _).
    specialize (H Scenarios.throwingOtherOracle eq_refl) as (_ & _ & H & _).
    exact (H eq_refl).
  - pose proof (C7_time_difference_minus_one_or_propagated
                  (snd (setTravelTimeTable (Some Scenarios.referenceThrowingOracle) new))
                  "pP" 0 0 40 10 10 0) as (_ & H & _).
    specialize (H Scenarios.referenceThrowingOracle eq_refl) as (_ & _ & _ & H & _).
    exact (H _ eq_refl eq_refl).
Defined.

(** C7 as stated fails: the oracle throws an object that is not a
    [std::exception]; the handler does not catch it, so the call does not
    return -1: the object leaves [computeDepthPhaseTimeDifference]. *)
Lemma C7_counterexample :
  compute Scenarios.throwingOtherOracle "pP" 0 0 40 10 10 0 = ThrowsOther
  /\ computeDepthPhaseTimeDifference
       (snd (setTravelTimeTable (Some Scenarios.throwingOtherOracle) new))
       "pP" 0 0 40 10 10 0 = ThrowsOther
  /\ computeDepthPhaseTimeDifference
       (snd (setTravelTimeTable (Some Scenarios.throwingOtherOracle) new))
       "pP" 0 0 40 10 10 0 <> Returns (-1).
Proof. repeat split. discriminate. Qed.


(** A Ready analyzer exists, and the null pointer takes it back. *)
Example ready_then_null :
  _ttt (Scenarios.analyzer 0 100) = Some Scenarios.linearOracle
  /\ _ttt (snd (setTravelTimeTable None (Scenarios.analyzer 0 100))) = None.
Proof. split; reflexivity. Qed.

End Oracle.

(** ** The region-depth lookup *)

Section Lookup.

Import RegionDepth.

Open Scope float_scope.

(** C9: after [setConfig c] the configuration is [c], the lookup is
    uninitialized and holds no region; the three data members are the whole
    state of the object, and all three are fixed by [c] alone, so the state
    afterwards does not depend on the state before and nothing else (the
    feature store is not an argument) is touched. *)
Theorem C9_setConfig_replaces_and_resets (c : RegionDepthConfig.t) (l : RegionDepthLookup) :
  config (setConfig c l) = c
  /\ isInitialized (setConfig c l) = false
  /\ regionCount (setConfig c l) = 0%nat
  /\ regionNames (setConfig c l) = []
  /\ setConfig c l = {| _config := c; _regions := []; _initialized := false |}
  /\ (forall l' : RegionDepthLookup, setConfig c l' = setConfig c l).
Proof. repeat split. Qed.

(** *** [init] *)

Lemma findFeature_Some features regionName feature :
  findFeature features regionName = Some feature ->
  In feature features /\ GeoFeature.name feature = regionName.
Proof.
  induction features as [| f rest IH]; simpl; [discriminate |].
  destruct (String.eqb (GeoFeature.name f) regionName) eqn:E.
  - intros [= <-]. apply String.eqb_eq in E. auto.
  - intros H. destruct (IH H). auto.
Qed.

Lemma findFeature_None features regionName :
  findFeature features regionName = None ->
  forall feature, In feature features -> GeoFeature.name feature <> regionName.
Proof.
  induction features as [| f rest IH]; simpl; [tauto |].
  destruct (String.eqb (GeoFeature.name f) regionName) eqn:E; [discriminate |].
  intros H feature [<- | Hin].
  - now apply String.eqb_neq.
  - now apply IH.
Qed.

(** The regions retained by [init]: for each configured name, in the
    configured order, the first feature of that name, if there is one. *)
Lemma loadRegions_omap features names regions :
  loadRegions features names regions
  = (regions ++ omap (findFeature features) names)%list.
Proof.
  revert regions.
  induction names as [| n rest IH]; intros regions; simpl.
  - now rewrite app_nil_r.
  - destruct (findFeature features n) as [f |]; rewrite IH; [| reflexivity].
    now rewrite <- app_assoc.
Qed.

Lemma omap_findFeature_nonempty features names :
  omap (findFeature features) names <> []
  <-> exists regionName, In regionName names
        /\ exists feature, In feature features /\ GeoFeature.name feature = regionName.
Proof.
  induction names as [| n rest IH]; simpl.
  - split; [congruence | intros (? & [] & _)].
  - destruct (findFeature features n) as [f |] eqn:E.
    + split; [| discriminate].
      intros _. exists n. split; [now left |].
      exists f. now apply findFeature_Some.
    + rewrite IH. split.
      * intros (m & Hm & H). exists m. split; [now right | exact H].
      * intros (m & [<- | Hm] & f & Hf & Hname).
        -- exfalso. exact (findFeature_None _ _ E f Hf Hname).
        -- exists m. split; [exact Hm | exists f; auto].
Qed.

Lemma init_enabled features l :
  RegionDepthConfig.enabled (_config l) = true ->
  let regions := omap (findFeature features) (RegionDepthConfig.regions (_config l)) in
  let initialized := match regions with [] => false | _ => true end in
  init features l
  = (initialized,
     {| _config := _config l; _regions := regions; _initialized := initialized |}).
Proof.
  intros En. unfold init. cbn [_config]. rewrite En. cbn [negb].
  destruct (RegionDepthConfig.regions (_config l)) as [| n rest] eqn:Er.
  - reflexivity.
  - now rewrite loadRegions_omap.
Qed.

Lemma init_disabled features l :
  RegionDepthConfig.enabled (_config l) = false ->
  init features l
  = (false, {| _config := _config l; _regions := []; _initialized := false |}).
Proof.
  intros En. unfold init. cbn [_config]. now rewrite En.
Qed.

(** C6: [init] returns true exactly when the lookup is enabled and some
    configured region name is the name of a feature of the store;
    [isInitialized] is that same value afterwards; a disabled lookup or an
    empty region list gives false, uninitialized, no retained region; the
    configuration is kept, and the retained regions are the resolved ones in
    configured order. *)
Theorem C6_init_true_iff_some_region_resolved
    (features : list GeoFeature.t) (l : RegionDepthLookup) :
  let cfg := config l in
  let r := init features l in
  (fst r = true <->
     RegionDepthConfig.enabled cfg = true
     /\ exists regionName, In regionName (RegionDepthConfig.regions cfg)
          /\ exists feature, In feature features
               /\ GeoFeature.name feature = regionName)
  /\ isInitialized (snd r) = fst r
  /\ (RegionDepthConfig.enabled cfg = false \/ RegionDepthConfig.regions cfg = [] ->
      fst r = false /\ isInitialized (snd r) = false
      /\ _regions (snd r) = [] /\ regionCount (snd r) = 0%nat)
  /\ config (snd r) = cfg
  /\ (RegionDepthConfig.enabled cfg = true ->
      _regions (snd r) = omap (findFeature features) (RegionDepthConfig.regions cfg)).
Proof.
  cbv zeta. unfold config, isInitialized, regionCount.
  destruct (RegionDepthConfig.enabled (_config l)) eqn:En.
  - rewrite (init_enabled features l En). cbv zeta. cbn [fst snd _config _regions _initialized].
    pose proof (omap_findFeature_nonempty features
                  (RegionDepthConfig.regions (_config l))) as Hne.
    destruct (omap (findFeature features) (RegionDepthConfig.regions (_config l)))
      as [| f fs] eqn:Eo.
    + split; [| split; [| split; [| split]]]; auto.
      split; [discriminate |].
      intros (_ & H). apply Hne in H. congruence.
    + split; [| split; [| split; [| split]]]; auto.
      * split; [| reflexivity].
        intros _. split; [reflexivity |]. apply Hne. discriminate.
      * intros [H | H]; [discriminate |]. rewrite H in Eo. discriminate.
  - rewrite (init_disabled features l En). cbn [fst snd _config _regions _initialized].
    split; [| split; [| split; [| split]]]; auto.
    + split; [discriminate | intros (H & _); discriminate].
    + discriminate.
Qed.

(** The store of scenario S6 resolves both names; a disabled lookup over
    the same store stays uninitialized. *)
Lemma C6_witness :
  fst (init Scenarios.S6_features (setConfig Scenarios.S6_config new)) = true
  /\ fst (init Scenarios.S6_features new) = false.
Proof.
  split.
  - pose proof (C6_init_true_iff_some_region_resolved
                  Scenarios.S6_features (setConfig Scenarios.S6_config new))
      as [[_ H] _].
    apply H. split; [reflexivity |].
    exists "A". split; [simpl; auto |].
    exists Scenarios.regionA. split; [simpl; auto | reflexivity].
  - pose proof (C6_init_true_iff_some_region_resolved Scenarios.S6_features new)
      as (_ & _ & H & _).
    apply H. left. reflexivity.
Defined.

End Lookup.

(** *** [getConstraints] *)

Section Constraints.

Import RegionDepth.

Open Scope float_scope.

Variable fromString : string -> option float.

(** The loop stops at the first region that contains the point. *)
Lemma scanRegions_first_match before region after lat lon result :
  (forall r, In r before -> GeoFeature.contains r lat lon = false) ->
  GeoFeature.contains region lat lon = true ->
  scanRegions fromString (before ++ region :: after) lat lon result
  = applyRegion fromString region result.
Proof.
  intros Hbefore Hin.
  induction before as [| r rest IH]; simpl.
  - now rewrite Hin.
  - rewrite (Hbefore r) by now left.
    apply IH. intros r' Hr'. apply Hbefore. now right.
Qed.

Lemma scanRegions_no_match regions lat lon result :
  (forall r, In r regions -> GeoFeature.contains r lat lon = false) ->
  scanRegions fromString regions lat lon result = result.
Proof.
  induction regions as [| r rest IH]; simpl; intros H; [reflexivity |].
  rewrite (H r) by now left.
  apply IH. intros r' Hr'. apply H. now right.
Qed.

Lemma getConstraints_first_match l before region after lat lon :
  RegionDepthConfig.enabled (_config l) = true ->
  _regions l = (before ++ region :: after)%list ->
  (forall r, In r before -> GeoFeature.contains r lat lon = false) ->
  GeoFeature.contains region lat lon = true ->
  getConstraints fromString l lat lon
  = applyRegion fromString region (globalDefaults l).
Proof.
  intros En E Hbefore Hin.
  unfold getConstraints. rewrite En, E. cbn [negb orb].
  destruct (before ++ region :: after)%list eqn:E'.
  - destruct before; discriminate.
  - rewrite <- E'. now apply scanRegions_first_match.
Qed.

(** What [parseDepthAttribute] yields, read off the attribute map and the
    parser: nothing when the map has no entry of that name, nothing when
    the text of the entry does not parse, and the parsed number otherwise. *)
Lemma parseDepthAttribute_cases feature attrName :
  (GeoFeature.attributes feature !! attrName = None ->
     parseDepthAttribute fromString feature attrName = None)
  /\ (forall text, GeoFeature.attributes feature !! attrName = Some text ->
        parseDepthAttribute fromString feature attrName = fromString text).
Proof.
  unfold parseDepthAttribute. split.
  - intros ->. reflexivity.
  - intros text ->. reflexivity.
Qed.

(** C5: on an initialized, enabled lookup whose retained regions are
    [before ++ region :: after], where no region of [before] contains the
    point and [region] does, [getConstraints] reports [region]: its name
    and [matched].  Its defaultDepth is read from the entry "defaultDepth"
    of the attribute map of [region], and its maxDepth from the entry
    "maxDepth": when the map has no such entry, or the text of the entry
    does not parse, the global default of the configuration stays and the
    flag stays clear; when the text parses, the parsed number is reported
    and the flag is set.  The regions of [after] are not consulted.  In
    particular with regions A (maxDepth "35") and B (maxDepth "700")
    retained in that order, a point inside both gives A and 35, and the
    global default depth when A has no entry "defaultDepth". *)
Theorem C5_first_matching_region_wins (l : RegionDepthLookup) (lat lon : float) :
  isInitialized l = true ->
  RegionDepthConfig.enabled (config l) = true ->
  (forall before region after,
     _regions l = (before ++ region :: after)%list ->
     (forall r, In r before -> GeoFeature.contains r lat lon = false) ->
     GeoFeature.contains region lat lon = true ->
     let c := getConstraints fromString l lat lon in
     RegionDepthConstraints.regionName c = GeoFeature.name region
     /\ RegionDepthConstraints.matched c = true
     (* defaultDepth: absent, unparsable, parsed *)
     /\ (GeoFeature.attributes region !! "defaultDepth" = None ->
         RegionDepthConstraints.defaultDepth c
         = RegionDepthConfig.globalDefaultDepth (config l)
         /\ RegionDepthConstraints.hasDefaultDepth c = false)
     /\ (forall text,
           GeoFeature.attributes region !! "defaultDepth" = Some text ->
           fromString text = None ->
           RegionDepthConstraints.defaultDepth c
           = RegionDepthConfig.globalDefaultDepth (config l)
           /\ RegionDepthConstraints.hasDefaultDepth c = false)
     /\ (forall text depth,
           GeoFeature.attributes region !! "defaultDepth" = Some text ->
           fromString text = Some depth ->
           RegionDepthConstraints.defaultDepth c = depth
           /\ RegionDepthConstraints.hasDefaultDepth c = true)
     (* maxDepth: absent, unparsable, parsed *)
     /\ (GeoFeature.attributes region !! "maxDepth" = None ->
         RegionDepthConstraints.maxDepth c
         = RegionDepthConfig.globalMaxDepth (config l)
         /\ RegionDepthConstraints.hasMaxDepth c = false)
     /\ (forall text,
           GeoFeature.attributes region !! "maxDepth" = Some text ->
           fromString text = None ->
           RegionDepthConstraints.maxDepth c
           = RegionDepthConfig.globalMaxDepth (config l)
           /\ RegionDepthConstraints.hasMaxDepth c = false)
     /\ (forall text depth,
           GeoFeature.attributes region !! "maxDepth" = Some text ->
           fromString text = Some depth ->
           RegionDepthConstraints.maxDepth c = depth
           /\ RegionDepthConstraints.hasMaxDepth c = true)
     (* the later regions are not consulted *)
     /\ (forall after',
           getConstraints fromString
             {| _config := _config l; _initialized := _initialized l;
                _regions := (before ++ region :: after')%list |} lat lon = c))
  /\ (forall A B textA textB,
        _regions l = [A; B] ->
        GeoFeature.contains A lat lon = true ->
        GeoFeature.contains B lat lon = true ->
        GeoFeature.attributes A !! "maxDepth" = Some textA ->
        fromString textA = Some 35 ->
        GeoFeature.attributes B !! "maxDepth" = Some textB ->
        fromString textB = Some 700 ->
        let c := getConstraints fromString l lat lon in
        RegionDepthConstraints.regionName c = GeoFeature.name A
        /\ RegionDepthConstraints.maxDepth c = 35
        /\ RegionDepthConstraints.hasMaxDepth c = true
        /\ (GeoFeature.attributes A !! "defaultDepth" = None ->
            RegionDepthConstraints.defaultDepth c
            = RegionDepthConfig.globalDefaultDepth (config l)
            /\ RegionDepthConstraints.hasDefaultDepth c = false)).
Proof.
  intros _ En. unfold config in *.
  split.
  - intros before region after E Hbefore Hin. cbv zeta.
    rewrite (getConstraints_first_match l before region after lat lon En E Hbefore Hin).
    destruct (parseDepthAttribute_cases region "defaultDepth") as [Dnone Dsome].
    destruct (parseDepthAttribute_cases region "maxDepth") as [Mnone Msome].
    unfold applyRegion, globalDefaults.
    split; [| split; [| split; [| split; [| split; [| split; [| split; [| split]]]]]]].
    + destruct (parseDepthAttribute fromString region "defaultDepth");
        destruct (parseDepthAttribute fromString region "maxDepth"); reflexivity.
    + destruct (parseDepthAttribute fromString region "defaultDepth");
        destruct (parseDepthAttribute fromString region "maxDepth"); reflexivity.
    + intros H. rewrite (Dnone H).
      destruct (parseDepthAttribute fromString region "maxDepth"); split; reflexivity.
    + intros text H P. rewrite (Dsome text H), P.
      destruct (parseDepthAttribute fromString region "maxDepth"); split; reflexivity.
    + intros text depth H P. rewrite (Dsome text H), P.
      destruct (parseDepthAttribute fromString region "maxDepth"); split; reflexivity.
    + intros H. rewrite (Mnone H).
      destruct (parseDepthAttribute fromString region "defaultDepth"); split; reflexivity.
    + intros text H P. rewrite (Msome text H), P.
      destruct (parseDepthAttribute fromString region "defaultDepth"); split; reflexivity.
    + intros text depth H P. rewrite (Msome text H), P.
      destruct (parseDepthAttribute fromString region "defaultDepth"); split; reflexivity.
    + intros after'.
      now rewrite (getConstraints_first_match
                     {| _config := _config l; _initialized := _initialized l;
                        _regions := (before ++ region :: after')%list |}
                     before region after' lat lon En eq_refl Hbefore Hin).
  - intros A B textA textB E HA HB LA PA LB PB. cbv zeta.
    rewrite (getConstraints_first_match l [] A [B] lat lon En E
               (fun r (H : In r []) => match H with end) HA).
    destruct (parseDepthAttribute_cases A "defaultDepth") as [Dnone _].
    destruct (parseDepthAttribute_cases A "maxDepth") as [_ Msome].
    unfold applyRegion, globalDefaults. rewrite (Msome textA LA), PA.
    split; [| split; [| split]].
    + destruct (parseDepthAttribute fromString A "defaultDepth"); reflexivity.
    + destruct (parseDepthAttribute fromString A "defaultDepth"); reflexivity.
    + destruct (parseDepthAttribute fromString A "defaultDepth"); reflexivity.
    + intros H. rewrite (Dnone H). split; reflexivity.
Qed.

End Constraints.

(** Scenario S6 run on the model: the store lists B before A, the
    configuration lists A before B, and the point (37, -93) lies in both.
    Region A has the entry maxDepth "35" and no entry defaultDepth: its
    maxDepth is reported, and the global default depth of 15 km stays. *)
Lemma C5_witness :
  let c := RegionDepth.getConstraints Scenarios.fromString_digits
             Scenarios.S6_lookup 37 (-93) in
  RegionDepth.RegionDepthConstraints.regionName c = "A"
  /\ RegionDepth.RegionDepthConstraints.maxDepth c = 35%float
  /\ RegionDepth.RegionDepthConstraints.hasMaxDepth c = true
  /\ RegionDepth.RegionDepthConstraints.defaultDepth c = 15%float
  /\ RegionDepth.RegionDepthConstraints.hasDefaultDepth c = false.
Proof.
  pose proof (C5_first_matching_region_wins Scenarios.fromString_digits
                Scenarios.S6_lookup 37 (-93) eq_refl eq_refl) as [_ H].
  destruct (H Scenarios.regionA Scenarios.regionB "35" "700"
              eq_refl eq_refl eq_refl eq_refl eq_refl eq_refl eq_refl)
    as (H1 & H2 & H3 & H4).
  destruct (H4 eq_refl) as [H5 H6].
  repeat split; assumption.
Defined.

(** ** Observations that the inversion does not read *)

Section Noninterference.

Import DepthPhases TwoRuns.

Open Scope float_scope.

Lemma misfitLoop_differWhereInvalid obs1 obs2 :
  Forall2 differWhereInvalid obs1 obs2 ->
  forall sumSquaredResiduals sumWeights count,
    misfitLoop obs1 sumSquaredResiduals sumWeights count
    = misfitLoop obs2 sumSquaredResiduals sumWeights count.
Proof.
  induction 1 as [| o1 o2 l1 l2 [-> | (V1 & V2 & _)] _ IH]; intros; simpl.
  - reflexivity.
  - destruct (DepthPhaseObservation.isValid o2); simpl; apply IH.
  - rewrite V1, V2. simpl. apply IH.
Qed.

Lemma calculateMisfit_differWhereInvalid a lat lon depth obs1 obs2 :
  Forall2 differWhereInvalid obs1 obs2 ->
  calculateMisfit a lat lon depth obs1 = calculateMisfit a lat lon depth obs2.
Proof.
  intros H. unfold calculateMisfit.
  now rewrite (misfitLoop_differWhereInvalid _ _ H).
Qed.

Lemma countValid_differWhereInvalid obs1 obs2 :
  Forall2 differWhereInvalid obs1 obs2 ->
  forall validCount, countValid obs1 validCount = countValid obs2 validCount.
Proof.
  induction 1 as [| o1 o2 l1 l2 [-> | (V1 & V2 & _)] _ IH]; intros; simpl.
  - reflexivity.
  - destruct (DepthPhaseObservation.isValid o2); apply IH.
  - rewrite V1, V2. apply IH.
Qed.

Lemma gridSearchLoop_differWhereInvalid a lat lon obs1 obs2 :
  Forall2 differWhereInvalid obs1 obs2 ->
  forall fuel maxDepth step depth bestDepth bestMisfit,
    gridSearchLoop fuel a lat lon obs1 maxDepth step depth bestDepth bestMisfit
    = gridSearchLoop fuel a lat lon obs2 maxDepth step depth bestDepth bestMisfit.
Proof.
  intros H. induction fuel as [| fuel IH]; intros; simpl; [reflexivity |].
  rewrite (calculateMisfit_differWhereInvalid a lat lon depth _ _ H).
  now rewrite !IH.
Qed.

(** C4 (amended): two observation lists that differ only in fields, other
    than [isValid] and [weight], of observations whose [isValid] flag is
    false give the same outcome of [invertForDepth], for every
    configuration, oracle, latitude and longitude, and with the same fuel
    (so one call returns exactly when the other does). *)
Theorem C4_invalid_observations_do_not_interfere
    (fuel : nat) (a : DepthPhaseAnalyzer) (lat lon initialDepth : float)
    (obs1 obs2 : list DepthPhaseObservation.t) :
  Forall2 differWhereInvalid obs1 obs2 ->
  invertForDepth fuel a lat lon obs1 initialDepth
  = invertForDepth fuel a lat lon obs2 initialDepth.
Proof.
  intros H. unfold invertForDepth, gridSearchDepth.
  rewrite (countValid_differWhereInvalid _ _ H).
  assert (G := gridSearchLoop_differWhereInvalid a lat lon _ _ H).
  destruct H as [| o1 o2 l1 l2 Ho Hl]; [reflexivity |].
  destruct (_ttt a); [| reflexivity].
  destruct (_ <? _)%Z; [reflexivity |].
  rewrite G.
  destruct (gridSearchLoop fuel a lat lon (o2 :: l2) _ _ _ _ _) as [d1 |];
    [| reflexivity].
  destruct (d1 <? 0); [reflexivity |].
  rewrite G.
  destruct (gridSearchLoop fuel a lat lon (o2 :: l2) _ _ _ _ _) as [d2 |];
    [| reflexivity].
  destruct (d2 <? 0); [reflexivity |].
  apply G.
Qed.

Lemma C4_witness :
  invertForDepth 200 (Scenarios.analyzer 0 100) 0 0
    (Scenarios.oneInvalid_observations 5) 33
  = invertForDepth 200 (Scenarios.analyzer 0 100) 0 0
      (Scenarios.oneInvalid_observations 999) 33.
Proof.
  apply C4_invalid_observations_do_not_interfere.
  do 3 (constructor; [left; reflexivity |]).
  constructor; [| constructor].
  right. repeat split.
Defined.

(** C4 as stated fails: the two lists differ only in the observed time (and
    the residual computed from it) of a valid observation of weight -1, and
    the first inversion returns -1 (the misfit is the square root of a
    negative number) while the second returns 0. *)
Lemma C4_counterexample :
  Forall2 differWhereInvalidOrWeightless
    (Scenarios.negativeWeight_observations 5)
    (Scenarios.negativeWeight_observations 0)
  /\ invertForDepth 200 (Scenarios.analyzer 0 100) 0 0
       (Scenarios.negativeWeight_observations 5) 33 = Some (-1)
  /\ invertForDepth 200 (Scenarios.analyzer 0 100) 0 0
       (Scenarios.negativeWeight_observations 0) 33 = Some 0.
Proof.
  split; [| split; vm_compute; reflexivity].
  do 3 (constructor; [left; reflexivity |]).
  constructor; [| constructor].
  right. repeat split. right. reflexivity.
Qed.

End Noninterference.

(** ** The grid search *)

Section GridSearch.

Import DepthPhases Binary64.

Local Open Scope float_scope.

Variable a : DepthPhaseAnalyzer.
Variables lat lon : float.

(** [calculateMisfit] reads neither the position nor the trial depth. *)
Lemma calculateMisfit_ignores_depth observations lat' lon' depth depth' :
  calculateMisfit a lat' lon' depth' observations
  = calculateMisfit a lat lon depth observations.
Proof. reflexivity. Qed.

Lemma std_max_ge_l x y z : (x <=? z) = true -> (x <=? std_max x y) = true.
Proof.
  intros H. unfold std_max. destruct (x <? y) eqn:E.
  - now apply ltb_leb.
  - exact (leb_refl x z H).
Qed.

Lemma std_min_le_l x y z : (z <=? x) = true -> (std_min x y <=? x) = true.
Proof.
  intros H. unfold std_min. destruct (y <? x) eqn:E.
  - now apply ltb_leb.
  - exact (leb_refl_r z x H).
Qed.

(** *** The result of a scan lies on the scanned interval *)

Lemma gridSearchLoop_range observations minDepth maxDepth step :
  finite_positive step = true ->
  forall fuel depth bestDepth bestMisfit r,
    (minDepth <=? depth) = true ->
    bestDepth = -1
    \/ ((minDepth <=? bestDepth) = true /\ (bestDepth <=? maxDepth) = true) ->
    gridSearchLoop fuel a lat lon observations maxDepth step
      depth bestDepth bestMisfit = Some r ->
    r = -1 \/ ((minDepth <=? r) = true /\ (r <=? maxDepth) = true).
Proof.
  intros Hstep.
  induction fuel as [| fuel IH]; intros depth bestDepth bestMisfit r Hlo Hbest;
    simpl; [discriminate |].
  destruct (depth <=? maxDepth) eqn:Hhi.
  - assert (Hnext : (minDepth <=? depth + step) = true).
    { apply (leb_trans _ depth); [exact Hlo |].
      apply add_positive_ge; [exact Hstep |].
      exact (leb_not_nan_l _ _ Hhi). }
    destruct (_ <? bestMisfit).
    + apply IH; auto.
    + apply IH; auto.
  - intros [= <-]. exact Hbest.
Qed.

Lemma gridSearchDepth_range observations fuel minDepth maxDepth step r :
  finite_positive step = true ->
  gridSearchDepth fuel a lat lon observations minDepth maxDepth step = Some r ->
  r = -1 \/ ((minDepth <=? r) = true /\ (r <=? maxDepth) = true).
Proof.
  intros Hstep. unfold gridSearchDepth.
  destruct (minDepth <=? maxDepth) eqn:E.
  - apply (gridSearchLoop_range observations minDepth maxDepth step Hstep); [| now left].
    exact (leb_refl _ _ E).
  - destruct fuel as [| fuel]; simpl; [discriminate |].
    rewrite E. intros [= <-]. now left.
Qed.

(** *** More fuel does not change a result *)

Lemma gridSearchLoop_more_fuel observations maxDepth step fuel fuel' :
  (fuel <= fuel')%nat ->
  forall depth bestDepth bestMisfit r,
    gridSearchLoop fuel a lat lon observations maxDepth step
      depth bestDepth bestMisfit = Some r ->
    gridSearchLoop fuel' a lat lon observations maxDepth step
      depth bestDepth bestMisfit = Some r.
Proof.
  revert fuel'.
  induction fuel as [| fuel IH]; intros fuel' Hle depth bestDepth bestMisfit r;
    simpl; [discriminate |].
  destruct fuel' as [| fuel']; [lia |]. simpl.
  destruct (depth <=? maxDepth); [| auto].
  destruct (_ <? bestMisfit); apply IH; lia.
Qed.

Lemma invertForDepth_more_fuel observations fuel fuel' initialDepth r :
  (fuel <= fuel')%nat ->
  invertForDepth fuel a lat lon observations initialDepth = Some r ->
  invertForDepth fuel' a lat lon observations initialDepth = Some r.
Proof.
  intros Hle. unfold invertForDepth, gridSearchDepth.
  destruct observations as [| o l]; [auto |].
  destruct (_ttt a); [| auto].
  destruct (_ <? _)%Z; [auto |].
  destruct (gridSearchLoop fuel a lat lon (o :: l) _ _ _ _ _) as [d1 |] eqn:G1;
    [| discriminate].
  rewrite (gridSearchLoop_more_fuel _ _ _ fuel fuel' Hle _ _ _ _ G1).
  clear G1.
  destruct (d1 <? 0); [auto |].
  destruct (gridSearchLoop fuel a lat lon (o :: l) _ _ _ _ _) as [d2 |] eqn:G2;
    [| discriminate].
  rewrite (gridSearchLoop_more_fuel _ _ _ fuel fuel' Hle _ _ _ _ G2).
  destruct (d2 <? 0); [auto |].
  apply gridSearchLoop_more_fuel, Hle.
Qed.

(** *** A finite scan returns *)

Lemma gridSearchLoop_returns observations maxDepth step :
  forall fuel depth bestDepth bestMisfit,
    scanEnds fuel maxDepth step depth = true ->
    exists r,
      gridSearchLoop fuel a lat lon observations maxDepth step
        depth bestDepth bestMisfit = Some r.
Proof.
  induction fuel as [| fuel IH]; intros depth bestDepth bestMisfit;
    simpl; [discriminate |].
  destruct (depth <=? maxDepth); [| eauto].
  intros H. destruct (_ <? bestMisfit); apply IH; exact H.
Qed.

(** *** A scan with the same misfit at every trial depth *)

Lemma gridSearchLoop_constant observations maxDepth step :
  forall fuel depth bestDepth bestMisfit,
    (calculateMisfit a lat lon depth observations <? bestMisfit) = false ->
    scanEnds fuel maxDepth step depth = true ->
    gridSearchLoop fuel a lat lon observations maxDepth step
      depth bestDepth bestMisfit = Some bestDepth.
Proof.
  induction fuel as [| fuel IH]; intros depth bestDepth bestMisfit Hm;
    simpl; [discriminate |].
  destruct (depth <=? maxDepth); [| reflexivity].
  rewrite Hm. apply IH. exact Hm.
Qed.

Lemma gridSearchDepth_first observations fuel minDepth maxDepth step :
  (minDepth <=? maxDepth) = true ->
  (calculateMisfit a lat lon minDepth observations <? DBL_MAX) = true ->
  scanEnds fuel maxDepth step minDepth = true ->
  gridSearchDepth fuel a lat lon observations minDepth maxDepth step
  = Some minDepth.
Proof.
  intros Hle Hm. unfold gridSearchDepth.
  destruct fuel as [| fuel]; simpl; [discriminate |].
  rewrite Hle, Hm. apply gridSearchLoop_constant.
  apply ltb_irrefl.
Qed.

(** Once the misfit is not below the best misfit, the best depth stays. *)
Lemma gridSearchLoop_settled observations maxDepth step :
  forall fuel depth bestDepth bestMisfit r,
    (calculateMisfit a lat lon depth observations <? bestMisfit) = false ->
    gridSearchLoop fuel a lat lon observations maxDepth step
      depth bestDepth bestMisfit = Some r ->
    r = bestDepth.
Proof.
  induction fuel as [| fuel IH]; intros depth bestDepth bestMisfit r Hm;
    simpl; [discriminate |].
  destruct (depth <=? maxDepth); [| now intros [= <-]].
  rewrite Hm. apply IH. exact Hm.
Qed.

(** A scan returns its first grid point or the initial -1. *)
Lemma gridSearchDepth_degenerate observations fuel minDepth maxDepth step r :
  gridSearchDepth fuel a lat lon observations minDepth maxDepth step = Some r ->
  r = minDepth \/ r = -1.
Proof.
  unfold gridSearchDepth.
  destruct fuel as [| fuel]; simpl; [discriminate |].
  destruct (minDepth <=? maxDepth); [| intros [= <-]; now right].
  destruct (_ <? DBL_MAX) eqn:Hm; intros H.
  - left. apply gridSearchLoop_settled in H; [exact H | apply ltb_irrefl].
  - right. apply gridSearchLoop_settled in H; [exact H | exact Hm].
Qed.

End GridSearch.

(** ** [invertForDepth] *)

Section Inversion.

Import DepthPhases Binary64.

Local Open Scope float_scope.

(** The fine and very fine scans start again at cfg.minDepth. *)
Lemma std_max_minus_step minDepth maxDepth c :
  (minDepth <=? maxDepth) = true ->
  finite_positive c = true ->
  std_max minDepth (minDepth - c) = minDepth.
Proof.
  intros Hle Hc. unfold std_max.
  now rewrite (leb_ltb_false _ _
                 (sub_positive_le minDepth c Hc (leb_not_nan_l _ _ Hle))).
Qed.

(** C3 (amended): for every configuration, position and observation list,
    [invertForDepth] returns when the three scans that start at
    cfg.minDepth are finite; and whenever it returns, the value is -1 or
    lies in the closed interval [cfg.minDepth, cfg.maxDepth], and every
    longer run returns the same value. *)
Theorem C3_returned_depth_is_minus_one_or_in_range
    (fuel : nat) (a : DepthPhaseAnalyzer) (lat lon : float)
    (observations : list DepthPhaseObservation.t) (initialDepth : float) :
  let minDepth := DepthPhaseConfig.minDepth (config a) in
  let maxDepth := DepthPhaseConfig.maxDepth (config a) in
  (scanEnds fuel maxDepth 10 minDepth = true ->
   scanEnds fuel (std_min maxDepth (minDepth + 20)) 1 minDepth = true ->
   scanEnds fuel (std_min maxDepth (minDepth + 5)) 0.5 minDepth = true ->
   exists r, invertForDepth fuel a lat lon observations initialDepth = Some r)
  /\ (forall r,
        invertForDepth fuel a lat lon observations initialDepth = Some r ->
        (r = -1 \/ ((minDepth <=? r) = true /\ (r <=? maxDepth) = true))
        /\ (forall fuel', (fuel <= fuel')%nat ->
              invertForDepth fuel' a lat lon observations initialDepth = Some r)).
Proof.
  cbv zeta. unfold config.
  set (minDepth := DepthPhaseConfig.minDepth (_config a)).
  set (maxDepth := DepthPhaseConfig.maxDepth (_config a)).
  split.
  - (* the inversion returns *)
    intros S1 S2 S3. unfold invertForDepth. fold minDepth maxDepth.
    destruct observations as [| o l]; [eauto |].
    destruct (_ttt a); [| eauto].
    destruct (_ <? _)%Z; [eauto |].
    destruct (gridSearchLoop_returns a lat lon (o :: l) maxDepth 10 fuel
                minDepth (-1) DBL_MAX S1) as [d1 G1].
    fold (gridSearchDepth fuel a lat lon (o :: l) minDepth maxDepth 10) in G1.
    rewrite G1.
    destruct (d1 <? 0) eqn:N1; [eauto |].
    pose proof (gridSearchDepth_range a lat lon (o :: l) fuel minDepth maxDepth 10 d1
                  eq_refl G1) as R1.
    apply gridSearchDepth_degenerate in G1.
    destruct G1 as [-> | ->]; [| discriminate].
    destruct R1 as [R1 | [_ Hle]]; [rewrite R1 in N1; discriminate |].
    rewrite (std_max_minus_step minDepth maxDepth 20 Hle eq_refl).
    destruct (gridSearchLoop_returns a lat lon (o :: l)
                (std_min maxDepth (minDepth + 20)) 1 fuel
                minDepth (-1) DBL_MAX S2) as [d2 G2].
    fold (gridSearchDepth fuel a lat lon (o :: l) minDepth
            (std_min maxDepth (minDepth + 20)) 1) in G2.
    rewrite G2.
    destruct (d2 <? 0) eqn:N2; [eauto |].
    apply gridSearchDepth_degenerate in G2.
    destruct G2 as [-> | ->]; [| discriminate].
    rewrite (std_max_minus_step minDepth maxDepth 5 Hle eq_refl).
    exact (gridSearchLoop_returns a lat lon (o :: l)
             (std_min maxDepth (minDepth + 5)) 0.5 fuel minDepth (-1) DBL_MAX S3).
  - (* the returned value *)
    intros r H.
    split; [| intros fuel' Hle; now apply (invertForDepth_more_fuel _ _ _ _ fuel)].
    revert H. unfold invertForDepth. fold minDepth maxDepth.
    destruct observations as [| o l]; [intros [= <-]; now left |].
    destruct (_ttt a); [| intros [= <-]; now left].
    destruct (_ <? _)%Z; [intros [= <-]; now left |].
    destruct (gridSearchDepth fuel a lat lon (o :: l) _ _ 10) as [d1 |] eqn:G1;
      [| discriminate].
    destruct (d1 <? 0) eqn:N1; [intros [= <-]; now left |].
    apply gridSearchDepth_range in G1 as [-> | [Hmin Hmax]];
      [discriminate | | reflexivity].
    destruct (gridSearchDepth fuel a lat lon (o :: l) _ _ 1) as [d2 |];
      [| discriminate].
    destruct (d2 <? 0); [intros [= <-]; now left |].
    intros G3.
    apply gridSearchDepth_range in G3 as [-> | [Hlo Hhi]];
      [now left | right | reflexivity].
    split.
    + apply (leb_trans _ (std_max minDepth (d2 - 5))); [| exact Hlo].
      exact (std_max_ge_l _ _ _ Hmin).
    + apply (leb_trans _ (std_min maxDepth (d2 + 5))); [exact Hhi |].
      exact (std_min_le_l _ _ _ Hmax).
Qed.

(** The default depth range 15..700 km with the observations of S4: the
    three scans end within 200 iterations, and the inversion returns 15. *)
Lemma C3_witness :
  (exists r, invertForDepth 200 (Scenarios.analyzer 15 700) 0 0
               Scenarios.S4_observations 33 = Some r)
  /\ (15 = -1 \/ ((15 <=? 15) = true /\ (15 <=? 700) = true))
  /\ (forall fuel', (200 <= fuel')%nat ->
        invertForDepth fuel' (Scenarios.analyzer 15 700) 0 0
          Scenarios.S4_observations 33 = Some 15).
Proof.
  pose proof (C3_returned_depth_is_minus_one_or_in_range
                200 (Scenarios.analyzer 15 700) 0 0 Scenarios.S4_observations 33)
    as [Hreturns Hvalue].
  split.
  - apply Hreturns; vm_compute; reflexivity.
  - apply (Hvalue 15). vm_compute. reflexivity.
Defined.

(** A scan that starts at 1e18 with the step 10 never advances:
    [1e18 + 10] rounds to [1e18]. *)
Lemma gridSearchLoop_stuck a lat lon observations fuel :
  forall bestDepth bestMisfit,
    gridSearchLoop fuel a lat lon observations 2e18 10 1e18 bestDepth bestMisfit
    = None.
Proof.
  induction fuel as [| fuel IH]; intros bestDepth bestMisfit; simpl;
    [reflexivity |].
  change (1e18 <=? 2e18) with true. change (1e18 + 10) with 1e18. cbv iota.
  destruct (_ <? bestMisfit); apply IH.
Qed.

(** C3 as stated fails: with cfg.minDepth = 1e18 and cfg.maxDepth = 2e18
    the coarse scan never leaves its loop, so [invertForDepth] returns
    nothing, whatever the fuel. *)
Lemma C3_counterexample :
  (1e18 + 10 = 1e18)
  /\ (1e18 <=? 2e18) = true
  /\ (forall fuel,
        invertForDepth fuel (Scenarios.analyzer 1e18 2e18) 0 0
          Scenarios.S4_observations 33 = None).
Proof.
  split; [reflexivity | split; [reflexivity |]].
  intros fuel. unfold invertForDepth, gridSearchDepth.
  cbn [Scenarios.S4_observations].
  change (_ttt (Scenarios.analyzer 1e18 2e18)) with (Some Scenarios.linearOracle).
  cbv iota beta.
  change (DepthPhaseConfig.minDepth (_config (Scenarios.analyzer 1e18 2e18)))
    with 1e18.
  change (DepthPhaseConfig.maxDepth (_config (Scenarios.analyzer 1e18 2e18)))
    with 2e18.
  change (DepthPhaseConfig.minPhaseCount (_config (Scenarios.analyzer 1e18 2e18)))
    with 3%Z.
  cbn [countValid Scenarios.observation DepthPhaseObservation.isValid Z.add Z.ltb
       Z.compare Pos.add Pos.succ Pos.compare Pos.compare_cont].
  now rewrite gridSearchLoop_stuck.
Qed.

(** C1 (amended): with an oracle set, at least cfg.minPhaseCount valid
    observations, each of positive weight, and 0 <= cfg.minDepth <=
    cfg.maxDepth, if the misfit of the stored residuals is below the largest
    finite double and each of the three scans from cfg.minDepth leaves its
    loop within the fuel, then [invertForDepth] returns exactly
    cfg.minDepth; the misfit is the same at every position and trial
    depth. *)
Theorem C1_degenerate_search_returns_minDepth
    (fuel : nat) (a : DepthPhaseAnalyzer) (ttt : TravelTimeTableInterface)
    (lat lon : float) (observations : list DepthPhaseObservation.t)
    (initialDepth : float) :
  let minDepth := DepthPhaseConfig.minDepth (config a) in
  let maxDepth := DepthPhaseConfig.maxDepth (config a) in
  _ttt a = Some ttt ->
  (DepthPhaseConfig.minPhaseCount (config a) <= countValid observations 0)%Z ->
  Forall (fun obs => DepthPhaseObservation.isValid obs = true ->
                     (0 <? DepthPhaseObservation.weight obs) = true) observations ->
  (minDepth <=? maxDepth) = true ->
  (0 <=? minDepth) = true ->
  (calculateMisfit a lat lon minDepth observations <? DBL_MAX) = true ->
  scanEnds fuel maxDepth 10 minDepth = true ->
  scanEnds fuel (std_min maxDepth (minDepth + 20)) 1 minDepth = true ->
  scanEnds fuel (std_min maxDepth (minDepth + 5)) 0.5 minDepth = true ->
  invertForDepth fuel a lat lon observations initialDepth = Some minDepth
  /\ (forall lat' lon' depth,
        calculateMisfit a lat' lon' depth observations
        = calculateMisfit a lat lon minDepth observations).
Proof.
  cbv zeta. unfold config.
  set (minDepth := DepthPhaseConfig.minDepth (_config a)).
  set (maxDepth := DepthPhaseConfig.maxDepth (_config a)).
  intros Httt Hcount _ Hle H0 Hm S1 S2 S3.
  split; [| reflexivity].
  pose proof (fun c => std_max_minus_step minDepth maxDepth c Hle) as Hmax.
  assert (Hmin : forall c, finite_positive c = true ->
                 (minDepth <=? std_min maxDepth (minDepth + c)) = true).
  { intros c Hc. unfold std_min. destruct (_ <? maxDepth); [| exact Hle].
    apply add_positive_ge; [exact Hc | exact (leb_not_nan_l _ _ Hle)]. }
  unfold invertForDepth.
  destruct observations as [| o l] eqn:Eo.
  { (* no observation: the misfit is the largest double *)
    discriminate Hm. }
  rewrite <- Eo in *. clear Eo.
  rewrite Httt.
  replace (_ <? _)%Z with false by (symmetry; apply Z.ltb_ge; exact Hcount).
  fold minDepth maxDepth.
  rewrite (gridSearchDepth_first a lat lon observations fuel minDepth maxDepth 10
             Hle Hm S1).
  rewrite (leb_ltb_false _ _ H0).
  rewrite (Hmax 20 eq_refl).
  rewrite (gridSearchDepth_first a lat lon observations fuel minDepth _ 1
             (Hmin 20 eq_refl) Hm S2).
  rewrite (leb_ltb_false _ _ H0).
  rewrite (Hmax 5 eq_refl).
  exact (gridSearchDepth_first a lat lon observations fuel minDepth _ 0.5
           (Hmin 5 eq_refl) Hm S3).
Qed.

(** The default depth range 15..700 km with the observations of S4. *)
Lemma C1_witness :
  invertForDepth 200 (Scenarios.analyzer 15 700) 0 0 Scenarios.S4_observations 33
  = Some 15
  /\ (forall lat' lon' depth,
        calculateMisfit (Scenarios.analyzer 15 700) lat' lon' depth
          Scenarios.S4_observations
        = calculateMisfit (Scenarios.analyzer 15 700) 0 0 15
            Scenarios.S4_observations).
Proof.
  apply (C1_degenerate_search_returns_minDepth
           200 (Scenarios.analyzer 15 700) Scenarios.linearOracle 0 0
           Scenarios.S4_observations 33).
  - reflexivity.
  - vm_compute. discriminate.
  - repeat constructor.
  - reflexivity.
  - reflexivity.
  - vm_compute. reflexivity.
  - vm_compute. reflexivity.
  - vm_compute. reflexivity.
  - vm_compute. reflexivity.
Defined.

(** C1 as stated fails: with cfg.minDepth = -5 and cfg.maxDepth = 100, an
    oracle, and the three valid observations of S4 (weight 1, and
    cfg.minPhaseCount = 3), the coarse scan returns -5, which is negative,
    and [invertForDepth] returns -1. *)
Lemma C1_counterexample :
  _ttt (Scenarios.analyzer (-5) 100) = Some Scenarios.linearOracle
  /\ (DepthPhaseConfig.minPhaseCount (config (Scenarios.analyzer (-5) 100))
      <= countValid Scenarios.S4_observations 0)%Z
  /\ Forall (fun obs => DepthPhaseObservation.isValid obs = true /\
                        (0 <? DepthPhaseObservation.weight obs) = true)
       Scenarios.S4_observations
  /\ (-5 <=? 100) = true
  /\ invertForDepth 200 (Scenarios.analyzer (-5) 100) 0 0
       Scenarios.S4_observations 33 = Some (-1)
  /\ gridSearchDepth 200 (Scenarios.analyzer (-5) 100) 0 0
       Scenarios.S4_observations (-5) 100 10 = Some (-5).
Proof.
  split; [reflexivity |].
  split; [vm_compute; discriminate |].
  split; [repeat constructor |].
  split; [reflexivity |].
  split; vm_compute; reflexivity.
Qed.

(** With a non-negative cfg.minDepth, whatever the stored times are, a
    returned depth is cfg.minDepth or -1. *)
Lemma invertForDepth_degenerate fuel a lat lon observations initialDepth r :
  (0 <=? DepthPhaseConfig.minDepth (config a)) = true ->
  invertForDepth fuel a lat lon observations initialDepth = Some r ->
  r = DepthPhaseConfig.minDepth (config a) \/ r = -1.
Proof.
  unfold config. set (minDepth := DepthPhaseConfig.minDepth (_config a)).
  intros H0.
  pose proof (fun c => std_max_minus_step minDepth minDepth c (leb_refl_r _ _ H0))
    as Hmax.
  unfold invertForDepth. fold minDepth.
  destruct observations as [| o l]; [intros [= <-]; now right |].
  destruct (_ttt a); [| intros [= <-]; now right].
  destruct (_ <? _)%Z; [intros [= <-]; now right |].
  destruct (gridSearchDepth fuel a lat lon (o :: l) _ _ 10) as [d1 |] eqn:G1;
    [| discriminate].
  destruct (d1 <? 0) eqn:N1; [intros [= <-]; now right |].
  apply gridSearchDepth_degenerate in G1 as [-> | ->]; [| discriminate].
  rewrite (Hmax 20 eq_refl).
  destruct (gridSearchDepth fuel a lat lon (o :: l) _ _ 1) as [d2 |] eqn:G2;
    [| discriminate].
  destruct (d2 <? 0) eqn:N2; [intros [= <-]; now right |].
  apply gridSearchDepth_degenerate in G2 as [-> | ->]; [| discriminate].
  rewrite (Hmax 5 eq_refl).
  apply gridSearchDepth_degenerate.
Qed.

(** A misfit that overflows is not below the largest double, and the
    inversion returns -1 although cfg.minDepth is 0. *)
Example overflowing_misfit_gives_minus_one :
  calculateMisfit (Scenarios.analyzer 0 100) 0 0 0 Scenarios.overflow_observations
  = infinity
  /\ invertForDepth 200 (Scenarios.analyzer 0 100) 0 0
       Scenarios.overflow_observations 33 = Some (-1).
Proof. split; vm_compute; reflexivity. Qed.

(** C2: on scenario S4 (three valid observations 80, 82, 78 s of weight 1,
    depth range 0..100 km) [invertForDepth] returns 0 km, which is not in
    [39.5, 40.5], although the oracle's pP - P time at 40 km is 80 s; and
    with that configuration no observation list at all makes it return a
    depth other than 0 or -1. *)
Theorem C2_scenario_S4_returns_zero :
  invertForDepth 200 (Scenarios.analyzer 0 100) 0 0 Scenarios.S4_observations 33
  = Some 0
  /\ (39.5 <=? 0) = false
  /\ computeDepthPhaseTimeDifference (Scenarios.analyzer 0 100) "pP" 0 0 40 10 10 0
     = Returns 80
  /\ (forall fuel lat lon observations initialDepth r,
        invertForDepth fuel (Scenarios.analyzer 0 100) lat lon
          observations initialDepth = Some r ->
        r = 0 \/ r = -1).
Proof.
  split; [vm_compute; reflexivity |].
  split; [reflexivity |].
  split; [vm_compute; reflexivity |].
  intros fuel lat lon observations initialDepth r.
  now apply invertForDepth_degenerate.
Qed.

End Inversion.

(** * Further properties of the analyzer *)

(** ** [computeDepthPhaseTimes] *)

Section PhaseFilter.

Import DepthPhases.

Lemma includePhase_elem_of (ttPhase : string) (targetPhases : list string) :
  includePhase ttPhase targetPhases = true <-> ttPhase ∈ targetPhases.
Proof.
  induction targetPhases as [| phase rest IH]; simpl.
  - split; [discriminate | intros H; inversion H].
  - destruct (String.eqb ttPhase phase) eqn:E.
    + apply String.eqb_eq in E. subst. split; [intros _; left | reflexivity].
    + apply String.eqb_neq in E. rewrite IH, elem_of_cons. tauto.
Qed.

Lemma filterPhases_filter (ttList : list TravelTime.t) targetPhases :
  forall result : list TravelTime.t,
  filterPhases ttList targetPhases result
  = (result ++ filter (fun tt0 => TravelTime.phase tt0 ∈ targetPhases) ttList)%list.
Proof.
  induction ttList as [| tt0 rest IH]; intros result; cbn [filterPhases].
  - now rewrite filter_nil, app_nil_r.
  - destruct (includePhase (TravelTime.phase tt0) targetPhases) eqn:E.
    + rewrite filter_cons_True by now apply includePhase_elem_of.
      rewrite IH, <- app_assoc. reflexivity.
    + rewrite filter_cons_False; [apply IH |].
      intros H. apply includePhase_elem_of in H. congruence.
Qed.

(** X1: with an oracle that yields a list, [computeDepthPhaseTimes] returns
    exactly the entries of that list whose phase is one of the target
    phases, in the oracle's order and with their repetitions; the target
    phases are [phases], or cfg.phases when [phases] is empty.  A null list
    gives the empty result. *)
Theorem computeDepthPhaseTimes_is_filter
    (a : DepthPhaseAnalyzer) (ttt : TravelTimeTableInterface)
    (lat lon depth stationLat stationLon stationElev : float)
    (phases : list string) :
  _ttt a = Some ttt ->
  let ttList := compute_all ttt lat lon depth stationLat stationLon stationElev in
  let targetPhases :=
    if decide (phases = []) then DepthPhaseConfig.phases (config a) else phases in
  computeDepthPhaseTimes a lat lon depth stationLat stationLon stationElev phases
  = match ttList with
    | Some l =>
        filter (fun tt0 => TravelTime.phase tt0 ∈ targetPhases)
          (l : list TravelTime.t)
    | None => []
    end.
Proof.
  intros Httt. cbv zeta. unfold computeDepthPhaseTimes, config. rewrite Httt.
  destruct (compute_all ttt _ _ _ _ _ _) as [l |]; [| reflexivity].
  rewrite filterPhases_filter. simpl.
  destruct phases; reflexivity.
Qed.

(** With the default phases pP, sP, pwP the five listed phases are cut down
    to pP and sP. *)
Lemma computeDepthPhaseTimes_is_filter_witness :
  map TravelTime.phase
    (computeDepthPhaseTimes MoreScenarios.listingAnalyzer 0 0 33 10 10 0 [])
  = ["pP"; "sP"].
Proof.
  rewrite (computeDepthPhaseTimes_is_filter MoreScenarios.listingAnalyzer
             MoreScenarios.listingOracle 0 0 33 10 10 0 [] eq_refl).
  vm_compute. reflexivity.
Defined.

End PhaseFilter.

(** ** [setTravelTimeTable] by name *)

Section NamedTable.

Import DepthPhases.

Local Open Scope float_scope.

Variable Create : string -> option TravelTimeTableInterface.
Variable setModel :
  TravelTimeTableInterface -> string -> bool * TravelTimeTableInterface.

(** X2: [setTravelTimeTable(type, model)] returns true exactly when the
    registry knows the type and the created oracle accepts the model; the
    analyzer then holds that oracle, as [setModel] left it.  Whenever it
    returns false the analyzer holds no oracle, whatever it held before, so
    [invertForDepth] and [computeDepthPhaseTimeDifference] are -1 and
    [computeDepthPhaseTimes] is empty.  The configuration is kept. *)
Theorem setTravelTimeTable_named_flag_is_state
    (type model : string) (a : DepthPhaseAnalyzer) :
  let r := setTravelTimeTable_named Create setModel type model a in
  (fst r = true <->
     exists ttt, Create type = Some ttt /\ fst (setModel ttt model) = true)
  /\ (forall ttt, Create type = Some ttt -> fst (setModel ttt model) = true ->
        _ttt (snd r) = Some (snd (setModel ttt model)))
  /\ (fst r = false ->
        _ttt (snd r) = None
        /\ (forall fuel lat lon observations initialDepth,
              invertForDepth fuel (snd r) lat lon observations initialDepth
              = Some (-1))
        /\ (forall depthPhase lat lon depth stationLat stationLon stationElev,
              computeDepthPhaseTimeDifference (snd r) depthPhase
                lat lon depth stationLat stationLon stationElev = Returns (-1))
        /\ (forall lat lon depth stationLat stationLon stationElev phases,
              computeDepthPhaseTimes (snd r)
                lat lon depth stationLat stationLon stationElev phases = []))
  /\ config (snd r) = config a.
Proof.
  cbv zeta. unfold setTravelTimeTable_named.
  destruct (Create type) as [ttt |].
  - destruct (setModel ttt model) as [[] ttt'] eqn:E; cbn [fst snd].
    + split; [| split; [| split]]; try reflexivity.
      * split; [| reflexivity]. intros _. exists ttt. now rewrite E.
      * intros t [= <-] _. now rewrite E.
      * discriminate.
    + split; [| split; [| split]]; try reflexivity.
      * split; [discriminate |]. intros (t & [= <-] & H). now rewrite E in H.
      * intros t [= <-] H. now rewrite E in H.
      * intros _. split; [reflexivity |]. split; [| split; reflexivity].
        intros. now apply invertForDepth_no_oracle.
  - cbn [fst snd]. split; [| split; [| split]]; try reflexivity.
    + split; [discriminate |]. intros (t & H & _). discriminate.
    + discriminate.
    + intros _. split; [reflexivity |]. split; [| split; reflexivity].
      intros. now apply invertForDepth_no_oracle.
Qed.

End NamedTable.

(** The registry knows "libtau" and the model "iasp91" is accepted; an
    unknown type takes a Ready analyzer back to one without an oracle. *)
Lemma setTravelTimeTable_named_flag_is_state_witness :
  fst (DepthPhases.setTravelTimeTable_named MoreScenarios.registry
         MoreScenarios.selectModel "libtau" "iasp91" DepthPhases.new) = true
  /\ DepthPhases._ttt
       (snd (DepthPhases.setTravelTimeTable_named MoreScenarios.registry
               MoreScenarios.selectModel "LOCSAT" "iasp91"
               (Scenarios.analyzer 0 100))) = None.
Proof.
  split.
  - apply (setTravelTimeTable_named_flag_is_state MoreScenarios.registry
             MoreScenarios.selectModel "libtau" "iasp91" DepthPhases.new).
    exists Scenarios.linearOracle. split; reflexivity.
  - apply (setTravelTimeTable_named_flag_is_state MoreScenarios.registry
             MoreScenarios.selectModel "LOCSAT" "iasp91" (Scenarios.analyzer 0 100)).
    reflexivity.
Defined.

(** ** [invertForDepth]: sentinels and what decides the result *)

Section InversionMore.

Import DepthPhases Binary64 Reads.

Local Open Scope float_scope.

Lemma SFcompare_None x y :
  SFcompare x y = None -> x = S754_nan \/ y = S754_nan.
Proof.
  destruct x as [sx | sx | | sx mx ex], y as [sy | sy | | sy my ey];
    simpl; auto; discriminate.
Qed.

Lemma SFleb_total x y :
  x <> S754_nan -> y <> S754_nan -> SFltb x y = false -> SFleb y x = true.
Proof.
  intros Hx Hy. unfold SFleb, SFltb. rewrite (SFcompare_antisym x y).
  destruct (SFcompare x y) as [[] |] eqn:E; simpl; try congruence.
  destruct (SFcompare_None _ _ E); congruence.
Qed.

Lemma ltb_false_leb x y :
  Prim2SF x <> S754_nan -> Prim2SF y <> S754_nan ->
  (x <? y) = false -> (y <=? x) = true.
Proof. rewrite ltb_spec, leb_spec. apply SFleb_total. Qed.

(** The count of [invertForDepth] is the number of valid observations. *)
Lemma countValid_length observations : forall validCount,
  countValid observations validCount
  = (validCount
     + Z.of_nat (length (List.filter DepthPhaseObservation.isValid observations)))%Z.
Proof.
  induction observations as [| obs rest IH]; intros validCount; simpl.
  - lia.
  - destruct (DepthPhaseObservation.isValid obs); rewrite IH; simpl length; lia.
Qed.

(** X3: [invertForDepth] returns -1 at once, without a scan and for any
    fuel, when the observation list is empty or holds fewer valid
    observations than cfg.minPhaseCount. *)
Theorem invertForDepth_too_few_valid_observations
    (fuel : nat) (a : DepthPhaseAnalyzer) (lat lon initialDepth : float)
    (observations : list DepthPhaseObservation.t) :
  observations = []
  \/ (Z.of_nat (length (List.filter DepthPhaseObservation.isValid observations))
      < DepthPhaseConfig.minPhaseCount (config a))%Z ->
  invertForDepth fuel a lat lon observations initialDepth = Some (-1).
Proof.
  unfold invertForDepth, config. intros [-> | H]; [reflexivity |].
  destruct observations as [| o l] eqn:E; [reflexivity |]. rewrite <- E in *.
  destruct (_ttt a); [| reflexivity].
  rewrite countValid_length.
  replace (_ <? _)%Z with true; [reflexivity |].
  symmetry. apply Z.ltb_lt. lia.
Qed.

(** Two valid observations are too few for the default minimum of three,
    even with no fuel at all. *)
Lemma invertForDepth_too_few_valid_observations_witness :
  invertForDepth 0 (Scenarios.analyzer 0 100) 0 0
    [Scenarios.observation 80 66 1 true; Scenarios.observation 82 66 1 true;
     Scenarios.observation 78 66 1 false] 33
  = Some (-1).
Proof.
  apply invertForDepth_too_few_valid_observations.
  right. vm_compute. reflexivity.
Defined.

(** A scan returns -1, or its first grid point, which is then inside the
    interval and has a misfit below the largest double. *)
Lemma gridSearchDepth_first_or_none a lat lon observations fuel minDepth maxDepth step r :
  gridSearchDepth fuel a lat lon observations minDepth maxDepth step = Some r ->
  r = -1
  \/ (r = minDepth
      /\ (minDepth <=? maxDepth) = true
      /\ (calculateMisfit a lat lon minDepth observations <? DBL_MAX) = true).
Proof.
  unfold gridSearchDepth.
  destruct fuel as [| fuel]; simpl; [discriminate |].
  destruct (minDepth <=? maxDepth); [| intros [= <-]; now left].
  destruct (_ <? DBL_MAX) eqn:Hm; intros H.
  - right. apply gridSearchLoop_settled in H; [auto | apply ltb_irrefl].
  - left. apply gridSearchLoop_settled in H; [exact H | exact Hm].
Qed.

(** X4: whatever the observations, the oracle and the position, a value
    returned by [invertForDepth] is -1 or cfg.minDepth itself; and it is
    cfg.minDepth only if an oracle is set, enough observations are valid,
    0 <= cfg.minDepth <= cfg.maxDepth and the misfit of the stored
    residuals is below the largest finite double. *)
Theorem invertForDepth_returns_minDepth_or_minus_one
    (fuel : nat) (a : DepthPhaseAnalyzer) (lat lon initialDepth : float)
    (observations : list DepthPhaseObservation.t) (r : float) :
  invertForDepth fuel a lat lon observations initialDepth = Some r ->
  let minDepth := DepthPhaseConfig.minDepth (config a) in
  let maxDepth := DepthPhaseConfig.maxDepth (config a) in
  r = -1
  \/ (r = minDepth
      /\ _ttt a <> None
      /\ (DepthPhaseConfig.minPhaseCount (config a) <= countValid observations 0)%Z
      /\ (0 <=? minDepth) = true
      /\ (minDepth <=? maxDepth) = true
      /\ (calculateMisfit a lat lon minDepth observations <? DBL_MAX) = true).
Proof.
  cbv zeta. unfold invertForDepth, config.
  set (minDepth := DepthPhaseConfig.minDepth (_config a)).
  set (maxDepth := DepthPhaseConfig.maxDepth (_config a)).
  destruct observations as [| o l] eqn:E; [intros [= <-]; now left |].
  rewrite <- E. clear E.
  destruct (_ttt a) as [ttt |]; [| intros [= <-]; now left].
  destruct (_ <? _)%Z eqn:Hcount; [intros [= <-]; now left |].
  apply Z.ltb_ge in Hcount.
  destruct (gridSearchDepth fuel a lat lon observations _ _ 10) as [d1 |] eqn:G1;
    [| discriminate].
  destruct (d1 <? 0) eqn:N1; [intros [= <-]; now left |].
  apply gridSearchDepth_first_or_none in G1 as [-> | (-> & Hle & Hm)];
    [discriminate |].
  assert (H0 : (0 <=? minDepth) = true).
  { apply ltb_false_leb; [exact (leb_not_nan_l _ _ Hle) | discriminate | exact N1]. }
  rewrite (std_max_minus_step minDepth maxDepth 20 Hle eq_refl).
  destruct (gridSearchDepth fuel a lat lon observations _ _ 1) as [d2 |] eqn:G2;
    [| discriminate].
  destruct (d2 <? 0) eqn:N2; [intros [= <-]; now left |].
  apply gridSearchDepth_first_or_none in G2 as [-> | (-> & _ & _)];
    [discriminate |].
  rewrite (std_max_minus_step minDepth maxDepth 5 Hle eq_refl).
  intros G3.
  apply gridSearchDepth_first_or_none in G3 as [-> | (-> & _ & _)]; [now left |].
  right. repeat split; auto.
Qed.

Lemma invertForDepth_returns_minDepth_or_minus_one_witness :
  15 = -1
  \/ (15 = 15
      /\ _ttt (Scenarios.analyzer 15 700) <> None
      /\ (3 <= countValid Scenarios.S4_observations 0)%Z
      /\ (0 <=? 15) = true
      /\ (15 <=? 700) = true
      /\ (calculateMisfit (Scenarios.analyzer 15 700) 0 0 15
            Scenarios.S4_observations <? DBL_MAX) = true).
Proof.
  apply (invertForDepth_returns_minDepth_or_minus_one
           200 (Scenarios.analyzer 15 700) 0 0 33 Scenarios.S4_observations 15).
  vm_compute. reflexivity.
Defined.

(** X5: when cfg.minDepth <= cfg.maxDepth is false (the range is inverted,
    or a bound is a NaN), [invertForDepth] returns -1 after one loop test,
    for every observation list. *)
Theorem invertForDepth_inverted_range
    (fuel : nat) (a : DepthPhaseAnalyzer) (lat lon initialDepth : float)
    (observations : list DepthPhaseObservation.t) :
  (DepthPhaseConfig.minDepth (config a) <=? DepthPhaseConfig.maxDepth (config a))
  = false ->
  invertForDepth (S fuel) a lat lon observations initialDepth = Some (-1).
Proof.
  unfold invertForDepth, config, gridSearchDepth. intros H.
  destruct observations as [| o l]; [reflexivity |].
  destruct (_ttt a); [| reflexivity].
  destruct (_ <? _)%Z; [reflexivity |].
  simpl. rewrite H. reflexivity.
Qed.

Lemma invertForDepth_inverted_range_witness :
  invertForDepth 1 (Scenarios.analyzer 700 15) 0 0 Scenarios.S4_observations 33
  = Some (-1)
  /\ invertForDepth 1 (Scenarios.analyzer nan 700) 0 0 Scenarios.S4_observations 33
     = Some (-1).
Proof.
  split; apply invertForDepth_inverted_range; reflexivity.
Defined.

(** *** What the inversion reads *)

Lemma misfitLoop_sameReadFields obs1 obs2 :
  Forall2 sameReadFields obs1 obs2 ->
  forall sumSquaredResiduals sumWeights count,
    misfitLoop obs1 sumSquaredResiduals sumWeights count
    = misfitLoop obs2 sumSquaredResiduals sumWeights count.
Proof.
  induction 1 as [| o1 o2 l1 l2 [V H] _ IH]; intros; simpl; [reflexivity |].
  rewrite <- V. destruct (DepthPhaseObservation.isValid o1); simpl.
  - destruct (H eq_refl) as (-> & -> & ->). apply IH.
  - apply IH.
Qed.

Lemma countValid_sameReadFields obs1 obs2 :
  Forall2 sameReadFields obs1 obs2 ->
  forall validCount, countValid obs1 validCount = countValid obs2 validCount.
Proof.
  induction 1 as [| o1 o2 l1 l2 [V _] _ IH]; intros; simpl; [reflexivity |].
  rewrite <- V. destruct (DepthPhaseObservation.isValid o1); apply IH.
Qed.

Lemma gridSearchLoop_sameReadFields a1 a2 lat1 lon1 lat2 lon2 obs1 obs2 :
  Forall2 sameReadFields obs1 obs2 ->
  forall fuel maxDepth step depth bestDepth bestMisfit,
    gridSearchLoop fuel a1 lat1 lon1 obs1 maxDepth step depth bestDepth bestMisfit
    = gridSearchLoop fuel a2 lat2 lon2 obs2 maxDepth step depth bestDepth bestMisfit.
Proof.
  intros H. induction fuel as [| fuel IH]; intros; simpl; [reflexivity |].
  replace (calculateMisfit a2 lat2 lon2 depth obs2)
    with (calculateMisfit a1 lat1 lon1 depth obs1)
    by (unfold calculateMisfit; now rewrite (misfitLoop_sameReadFields _ _ H)).
  now rewrite !IH.
Qed.

(** X6: [invertForDepth] reads only the depth range and the minimum phase
    count of the configuration, whether an oracle is set, and of each
    observation the validity flag and, when valid, the weight and the two
    time differences: two calls that agree on these give the same outcome,
    whatever the oracles compute and whatever the positions, the initial
    depths, and the other fields (names, stored residual, distance) are. *)
Theorem invertForDepth_reads_only
    (fuel : nat) (a1 a2 : DepthPhaseAnalyzer)
    (lat1 lon1 initialDepth1 lat2 lon2 initialDepth2 : float)
    (obs1 obs2 : list DepthPhaseObservation.t) :
  sameReadConfig a1 a2 ->
  Forall2 sameReadFields obs1 obs2 ->
  invertForDepth fuel a1 lat1 lon1 obs1 initialDepth1
  = invertForDepth fuel a2 lat2 lon2 obs2 initialDepth2.
Proof.
  intros (Emin & Emax & Ecount & Ettt) H.
  unfold invertForDepth, gridSearchDepth.
  rewrite (countValid_sameReadFields _ _ H), <- Emin, <- Emax, <- Ecount.
  assert (G := gridSearchLoop_sameReadFields a1 a2 lat1 lon1 lat2 lon2 _ _ H).
  destruct H as [| o1 o2 l1 l2 Ho Hl]; [reflexivity |].
  destruct (_ttt a1) as [t1 |], (_ttt a2) as [t2 |]; try reflexivity;
    try (destruct Ettt as [E1 E2]; (now specialize (E1 eq_refl))
                                    || (now specialize (E2 eq_refl))).
  destruct (_ <? _)%Z; [reflexivity |].
  rewrite G.
  destruct (gridSearchLoop fuel a2 lat2 lon2 (o2 :: l2) _ _ _ _ _) as [d1 |];
    [| reflexivity].
  destruct (d1 <? 0); [reflexivity |].
  rewrite G.
  destruct (gridSearchLoop fuel a2 lat2 lon2 (o2 :: l2) _ _ _ _ _) as [d2 |];
    [| reflexivity].
  destruct (d2 <? 0); [reflexivity |].
  apply G.
Qed.

(** The observations of S4 under other names, residuals and distances, a
    throwing oracle instead of the linear one, another position and another
    initial depth. *)
Lemma invertForDepth_reads_only_witness :
  invertForDepth 200 (Scenarios.analyzer 15 700) 0 0 Scenarios.S4_observations 33
  = invertForDepth 200
      (snd (setTravelTimeTable (Some Scenarios.throwingOracle)
              (Scenarios.analyzer 15 700)))
      45 90 MoreScenarios.S4_relabelled 600.
Proof.
  apply invertForDepth_reads_only.
  - repeat split; discriminate.
  - repeat constructor.
Defined.

End InversionMore.

(** * Further properties of the region-depth lookup *)

(** ** [init] *)

Section InitMore.

Import RegionDepth.

(** [init] reads the configuration and the store only. *)
Lemma init_config_only features l l' :
  _config l = _config l' -> init features l = init features l'.
Proof. unfold init. cbn [_config]. now intros ->. Qed.

Lemma init_keeps_config features l : _config (snd (init features l)) = _config l.
Proof.
  destruct (RegionDepthConfig.enabled (_config l)) eqn:En.
  - now rewrite (init_enabled features l En).
  - now rewrite (init_disabled features l En).
Qed.

(** X7: [init] is idempotent over one feature store: a second call returns
    the same flag and leaves the same lookup as the first; more generally
    the flag and the lookup after [init] depend on the configuration and the
    store only, not on what the lookup retained before. *)
Theorem init_idempotent (features : list GeoFeature.t) (l : RegionDepthLookup) :
  init features (snd (init features l)) = init features l
  /\ (forall l', config l' = config l -> init features l' = init features l).
Proof.
  split.
  - apply init_config_only, init_keeps_config.
  - intros l' H. now apply init_config_only.
Qed.

Lemma findFeature_first features regionName feature :
  findFeature features regionName = Some feature ->
  exists before after,
    features = (before ++ feature :: after)%list
    /\ Forall (fun f => GeoFeature.name f <> regionName) before.
Proof.
  induction features as [| f rest IH]; simpl; [discriminate |].
  destruct (String.eqb (GeoFeature.name f) regionName) eqn:E.
  - intros [= <-]. exists [], rest. split; [reflexivity | constructor].
  - intros H. destruct (IH H) as (before & after & -> & Hb).
    exists (f :: before), after. split; [reflexivity |].
    constructor; [now apply String.eqb_neq | exact Hb].
Qed.

(** X8: every region retained by [init] is the first feature of its name
    in the store, and its name is a configured one: a later feature of the
    same name is never the one retained for it. *)
Theorem init_retains_first_feature_of_a_configured_name
    (features : list GeoFeature.t) (l : RegionDepthLookup) (region : GeoFeature.t) :
  In region (_regions (snd (init features l))) ->
  RegionDepthConfig.enabled (config l) = true
  /\ In (GeoFeature.name region) (RegionDepthConfig.regions (config l))
  /\ exists before after,
       features = (before ++ region :: after)%list
       /\ Forall (fun f => GeoFeature.name f <> GeoFeature.name region) before.
Proof.
  unfold config.
  destruct (RegionDepthConfig.enabled (_config l)) eqn:En.
  - rewrite (init_enabled features l En). cbn [snd _regions].
    intros H. apply list_elem_of_In, list_elem_of_omap in H as (n & Hn & Hf).
    apply list_elem_of_In in Hn.
    destruct (findFeature_Some _ _ _ Hf) as [_ <-].
    split; [reflexivity |]. split; [exact Hn |].
    exact (findFeature_first _ _ _ Hf).
  - rewrite (init_disabled features l En). intros [].
Qed.

(** With two features named "A" in the store, the first one is retained. *)
Lemma init_retains_first_feature_of_a_configured_name_witness :
  exists before after,
    [Scenarios.regionB; Scenarios.regionA; MoreScenarios.regionA_again]
    = (before ++ Scenarios.regionA :: after)%list
    /\ Forall (fun f => GeoFeature.name f <> GeoFeature.name Scenarios.regionA)
         before.
Proof.
  apply (init_retains_first_feature_of_a_configured_name
           [Scenarios.regionB; Scenarios.regionA; MoreScenarios.regionA_again]
           (setConfig Scenarios.S6_config new) Scenarios.regionA).
  vm_compute. auto.
Defined.

Lemma omap_findFeature_names features names :
  map GeoFeature.name (omap (findFeature features) names)
  = filter (fun n => n ∈ map GeoFeature.name features) names.
Proof.
  induction names as [| n rest IH]; [reflexivity |].
  cbn [omap list_omap]. destruct (findFeature features n) as [f |] eqn:E.
  - destruct (findFeature_Some _ _ _ E) as [Hin <-].
    rewrite filter_cons_True.
    + cbn [map]. f_equal. exact IH.
    + apply list_elem_of_In, in_map, Hin.
  - rewrite filter_cons_False; [exact IH |].
    intros H. apply list_elem_of_In, in_map_iff in H as (f & Hname & Hin).
    exact (findFeature_None _ _ E f Hin Hname).
Qed.

Lemma omap_findFeature_length features names :
  (length (omap (findFeature features) names) <= length names)%nat.
Proof.
  induction names as [| n rest IH]; [reflexivity |].
  cbn [omap list_omap]. destruct (findFeature features n); simpl; lia.
Qed.

(** X9: after [init] on an enabled lookup, [regionNames] is the list of
    configured names with the names that no feature bears left out, in the
    configured order (a name configured twice is listed twice), and
    [regionCount] is its length, at most the number of configured names;
    after [init] on a disabled lookup both are empty. *)
Theorem regionNames_after_init (features : list GeoFeature.t) (l : RegionDepthLookup) :
  let l' := snd (init features l) in
  (RegionDepthConfig.enabled (config l) = true ->
     regionNames l'
     = filter (fun n => n ∈ map GeoFeature.name features)
         (RegionDepthConfig.regions (config l)))
  /\ (RegionDepthConfig.enabled (config l) = false -> regionNames l' = [])
  /\ regionCount l' = length (regionNames l')
  /\ (regionCount l' <= length (RegionDepthConfig.regions (config l)))%nat.
Proof.
  cbv zeta. unfold config, regionNames, regionCount.
  destruct (RegionDepthConfig.enabled (_config l)) eqn:En.
  - rewrite (init_enabled features l En). cbn [snd _regions].
    split; [| split; [| split]].
    + intros _. apply omap_findFeature_names.
    + discriminate.
    + now rewrite length_map.
    + apply omap_findFeature_length.
  - rewrite (init_disabled features l En). cbn [snd _regions].
    split; [discriminate | split; [reflexivity | split; [reflexivity |]]].
    simpl. lia.
Qed.

(** The names "A", "C", "B", "A" against the store of S6: "C" is left out. *)
Lemma regionNames_after_init_witness :
  regionNames
    (snd (init Scenarios.S6_features
            (setConfig {| RegionDepthConfig.enabled := true;
                          RegionDepthConfig.regions := ["A"; "C"; "B"; "A"];
                          RegionDepthConfig.globalDefaultDepth := 10;
                          RegionDepthConfig.globalMaxDepth := 700 |} new)))
  = ["A"; "B"; "A"].
Proof.
  pose proof (regionNames_after_init Scenarios.S6_features
                (setConfig {| RegionDepthConfig.enabled := true;
                              RegionDepthConfig.regions := ["A"; "C"; "B"; "A"];
                              RegionDepthConfig.globalDefaultDepth := 10;
                              RegionDepthConfig.globalMaxDepth := 700 |} new))
    as [H _].
  rewrite (H eq_refl). vm_compute. reflexivity.
Defined.

End InitMore.

(** ** [getConstraints] beyond the first match *)

Section ConstraintsMore.

Import RegionDepth Lifecycle.

Open Scope float_scope.

Variable fromString : string -> option float.

Lemma applyRegion_matched region result :
  RegionDepthConstraints.matched (applyRegion fromString region result) = true.
Proof.
  unfold applyRegion.
  destruct (parseDepthAttribute fromString region "defaultDepth");
    destruct (parseDepthAttribute fromString region "maxDepth"); reflexivity.
Qed.

(** The loop either falls through or stops at the first containing region. *)
Lemma scanRegions_cases regions lat lon result :
  ((forall r, In r regions -> GeoFeature.contains r lat lon = false)
   /\ scanRegions fromString regions lat lon result = result)
  \/ (exists before region after,
        regions = (before ++ region :: after)%list
        /\ (forall r, In r before -> GeoFeature.contains r lat lon = false)
        /\ GeoFeature.contains region lat lon = true
        /\ scanRegions fromString regions lat lon result
           = applyRegion fromString region result).
Proof.
  induction regions as [| r rest IH]; simpl.
  - left. split; [intros r [] | reflexivity].
  - destruct (GeoFeature.contains r lat lon) eqn:E.
    + right. exists [], r, rest. repeat split; auto. intros r' [].
    + destruct IH as [[Hno Hs] | (before & region & after & -> & Hb & Hin & Hs)].
      * left. split; [| exact Hs]. intros r' [<- | H]; auto.
      * right. exists (r :: before), region, after. repeat split; auto.
        intros r' [<- | H]; auto.
Qed.

(** X10: [getConstraints] reports a match exactly when the lookup is
    enabled and some retained region contains the point; when it reports
    none, the result is the global defaults of the configuration with the
    empty name and both flags clear. *)
Theorem getConstraints_matched_iff_some_region_contains
    (l : RegionDepthLookup) (lat lon : float) :
  let c := getConstraints fromString l lat lon in
  (RegionDepthConstraints.matched c = true
   <-> RegionDepthConfig.enabled (config l) = true
       /\ exists region, In region (_regions l)
                         /\ GeoFeature.contains region lat lon = true)
  /\ (RegionDepthConstraints.matched c = false ->
      c = {| RegionDepthConstraints.regionName := "";
             RegionDepthConstraints.defaultDepth :=
               RegionDepthConfig.globalDefaultDepth (config l);
             RegionDepthConstraints.maxDepth :=
               RegionDepthConfig.globalMaxDepth (config l);
             RegionDepthConstraints.hasDefaultDepth := false;
             RegionDepthConstraints.hasMaxDepth := false;
             RegionDepthConstraints.matched := false |}).
Proof.
  cbv zeta. unfold getConstraints, config.
  destruct (RegionDepthConfig.enabled (_config l)) eqn:En; cbn [negb orb].
  - destruct (_regions l) as [| r0 rest] eqn:E.
    + split; [| reflexivity]. split; [discriminate |].
      intros [_ (region & [] & _)].
    + rewrite <- E.
      destruct (scanRegions_cases (_regions l) lat lon (globalDefaults l))
        as [[Hno ->] | (before & region & after & Hsplit & Hb & Hin & ->)].
      * split; [| reflexivity]. split; [discriminate |].
        intros [_ (region & Hr & Hc)]. rewrite (Hno region Hr) in Hc. discriminate.
      * rewrite applyRegion_matched. split; [| discriminate].
        split; [| reflexivity]. intros _. split; [reflexivity |].
        exists region. split; [| exact Hin].
        rewrite Hsplit. apply in_or_app. right. now left.
  - split; [| reflexivity]. split; [discriminate | intros [H _]; discriminate].
Qed.

(** X11: [getDefaultDepth] and [getMaxDepth] give the global value of the
    configuration whenever [getConstraints] leaves the corresponding flag
    clear, and a set flag is never reported without a match. *)
Theorem getDefaultDepth_getMaxDepth_fall_back
    (l : RegionDepthLookup) (lat lon : float) :
  let c := getConstraints fromString l lat lon in
  (RegionDepthConstraints.hasDefaultDepth c = false ->
     getDefaultDepth fromString l lat lon
     = RegionDepthConfig.globalDefaultDepth (config l))
  /\ (RegionDepthConstraints.hasMaxDepth c = false ->
      getMaxDepth fromString l lat lon
      = RegionDepthConfig.globalMaxDepth (config l))
  /\ (RegionDepthConstraints.matched c = false ->
      RegionDepthConstraints.hasDefaultDepth c = false
      /\ RegionDepthConstraints.hasMaxDepth c = false).
Proof.
  cbv zeta. unfold getDefaultDepth, getMaxDepth, getConstraints, config.
  destruct (negb (RegionDepthConfig.enabled (_config l))
            || match _regions l with [] => true | _ => false end).
  - repeat split; reflexivity.
  - destruct (scanRegions_cases (_regions l) lat lon (globalDefaults l))
      as [[_ ->] | (before & region & after & _ & _ & _ & ->)].
    + repeat split; reflexivity.
    + unfold applyRegion.
      destruct (parseDepthAttribute fromString region "defaultDepth");
        destruct (parseDepthAttribute fromString region "maxDepth");
        cbn; repeat split; congruence.
Qed.

Lemma reachable_regions l :
  Reachable l ->
  _initialized l = match _regions l with [] => false | _ => true end
  /\ (_regions l <> [] -> RegionDepthConfig.enabled (_config l) = true)
  /\ Forall (fun r => In (GeoFeature.name r)
                        (RegionDepthConfig.regions (_config l))) (_regions l).
Proof.
  induction 1 as [| c l _ _ | features l _ _].
  - repeat split; [intros H; now destruct H | constructor].
  - repeat split; [intros H; now destruct H | constructor].
  - destruct (RegionDepthConfig.enabled (_config l)) eqn:En.
    + rewrite (init_enabled features l En). cbn [snd _regions _initialized _config].
      split; [| split; [intros _; exact En |]].
      * now destruct (omap (findFeature features)
                        (RegionDepthConfig.regions (_config l))).
      * apply Forall_forall. intros r Hr.
        apply list_elem_of_omap in Hr as (n & Hn & Hf).
        apply list_elem_of_In in Hn.
        now destruct (findFeature_Some _ _ _ Hf) as [_ <-].
    + rewrite (init_disabled features l En). cbn [snd _regions _initialized _config].
      repeat split; [intros H; now destruct H | constructor].
Qed.

(** X12: on every lookup a caller can obtain from a fresh one by
    [setConfig] and [init], [isInitialized] holds exactly when a region is
    retained, which happens only under an enabled configuration and only
    for configured names; [getConstraints] is then the scan of the retained
    regions from the global defaults, and on a lookup that is not
    initialized it is the global defaults at every point. *)
Theorem reachable_lookup_invariant (l : RegionDepthLookup) :
  Reachable l ->
  (isInitialized l = true <-> (0 < regionCount l)%nat)
  /\ (isInitialized l = true -> RegionDepthConfig.enabled (config l) = true)
  /\ (forall name, In name (regionNames l) ->
        In name (RegionDepthConfig.regions (config l)))
  /\ (forall lat lon,
        getConstraints fromString l lat lon
        = scanRegions fromString (_regions l) lat lon (globalDefaults l))
  /\ (isInitialized l = false ->
      forall lat lon, getConstraints fromString l lat lon = globalDefaults l).
Proof.
  intros R. destruct (reachable_regions l R) as (Hinit & Hen & Hnames).
  unfold isInitialized, regionCount, regionNames, config, getConstraints.
  rewrite Hinit.
  destruct (_regions l) as [| r0 rest] eqn:E.
  - repeat split; try discriminate; try (simpl; lia); try (intros _ []).
    + intros lat lon. now rewrite orb_true_r.
    + intros _ lat lon. now rewrite orb_true_r.
  - rewrite (Hen ltac:(discriminate)). cbn [negb orb].
    repeat split; try discriminate; try (simpl; lia).
    intros name Hn. apply in_map_iff in Hn as (r & <- & Hr).
    rewrite Forall_forall in Hnames. apply Hnames, list_elem_of_In, Hr.
Qed.

Lemma scanRegions_unique regions lat lon result region :
  In region regions ->
  GeoFeature.contains region lat lon = true ->
  (forall r1 r2, In r1 regions -> In r2 regions ->
     GeoFeature.contains r1 lat lon = true ->
     GeoFeature.contains r2 lat lon = true -> r1 = r2) ->
  scanRegions fromString regions lat lon result
  = applyRegion fromString region result.
Proof.
  intros Hin Hc Huniq.
  destruct (scanRegions_cases regions lat lon result)
    as [[Hno _] | (before & r & after & Hsplit & _ & Hr & ->)].
  - rewrite (Hno region Hin) in Hc. discriminate.
  - f_equal. apply Huniq; auto.
    rewrite Hsplit. apply in_or_app. right. now left.
Qed.

(** X13: where at most one retained region contains the point, the order
    of the retained regions does not matter: two lookups of the same
    configuration whose retained regions are permutations of each other give
    the same constraints there. *)
Theorem getConstraints_order_irrelevant_where_regions_are_disjoint
    (l l' : RegionDepthLookup) (lat lon : float) :
  config l' = config l ->
  Permutation (_regions l) (_regions l') ->
  (forall r1 r2, In r1 (_regions l) -> In r2 (_regions l) ->
     GeoFeature.contains r1 lat lon = true ->
     GeoFeature.contains r2 lat lon = true -> r1 = r2) ->
  getConstraints fromString l' lat lon = getConstraints fromString l lat lon.
Proof.
  unfold config. intros Hc Hperm Huniq.
  assert (Hg : globalDefaults l' = globalDefaults l)
    by (unfold globalDefaults; now rewrite Hc).
  unfold getConstraints. rewrite Hc, Hg.
  destruct (negb (RegionDepthConfig.enabled (_config l))); cbn [orb];
    [reflexivity |].
  assert (Hempty : match _regions l' with [] => true | _ => false end
                   = match _regions l with [] => true | _ => false end).
  { destruct (_regions l) as [| r rest], (_regions l') as [| r' rest'];
      try reflexivity.
    - apply Permutation_nil in Hperm. discriminate.
    - apply Permutation_sym, Permutation_nil in Hperm. discriminate. }
  rewrite Hempty. destruct (match _regions l with [] => true | _ => false end);
    [reflexivity |].
  destruct (scanRegions_cases (_regions l) lat lon (globalDefaults l))
    as [[Hno ->] | (before & region & after & Hsplit & _ & Hin & ->)].
  - apply scanRegions_no_match. intros r Hr. apply Hno.
    eapply Permutation_in; [apply Permutation_sym, Hperm | exact Hr].
  - assert (Hmem : In region (_regions l))
      by (rewrite Hsplit; apply in_or_app; right; now left).
    apply scanRegions_unique; [eapply Permutation_in; eassumption | exact Hin |].
    intros r1 r2 H1 H2. apply Huniq;
      (eapply Permutation_in; [apply Permutation_sym, Hperm | assumption]).
Qed.

Lemma applyRegion_sameReadRegion lat lon r1 r2 result :
  sameReadRegion fromString lat lon r1 r2 ->
  applyRegion fromString r1 result = applyRegion fromString r2 result.
Proof.
  intros (Hn & _ & Hd & Hm). unfold applyRegion. now rewrite Hn, Hd, Hm.
Qed.

(** X14: [getConstraints] reads of the configuration the enabled flag and
    the two global depths, and of each retained region its name, whether it
    contains the point, and what its defaultDepth and maxDepth attributes
    parse to: lookups that agree on these give the same constraints.  In
    particular an attribute whose text does not parse acts as an absent
    one, and other attributes are not looked at. *)
Theorem getConstraints_reads_only (l1 l2 : RegionDepthLookup) (lat lon : float) :
  RegionDepthConfig.enabled (config l1) = RegionDepthConfig.enabled (config l2) ->
  RegionDepthConfig.globalDefaultDepth (config l1)
  = RegionDepthConfig.globalDefaultDepth (config l2) ->
  RegionDepthConfig.globalMaxDepth (config l1)
  = RegionDepthConfig.globalMaxDepth (config l2) ->
  Forall2 (sameReadRegion fromString lat lon) (_regions l1) (_regions l2) ->
  getConstraints fromString l1 lat lon = getConstraints fromString l2 lat lon.
Proof.
  unfold config. intros He Hd Hm Hregions.
  assert (Hg : globalDefaults l1 = globalDefaults l2)
    by (unfold globalDefaults; now rewrite Hd, Hm).
  unfold getConstraints. rewrite He, Hg.
  destruct (negb (RegionDepthConfig.enabled (_config l2))); cbn [orb];
    [reflexivity |].
  generalize (globalDefaults l2). intros result.
  destruct Hregions as [| r1 r2 rest1 rest2 Hr Hrest]; [reflexivity |].
  assert (H : Forall2 (sameReadRegion fromString lat lon) (r1 :: rest1) (r2 :: rest2))
    by now constructor.
  clear Hr Hrest. revert H.
  generalize (r1 :: rest1) (r2 :: rest2). intros regions1 regions2 H.
  induction H as [| x y xs ys Hxy _ IH]; [reflexivity |].
  simpl. destruct Hxy as (Hn & Hc & Hdd & Hmd). rewrite Hc.
  destruct (GeoFeature.contains y lat lon) eqn:Ey; [| exact IH].
  apply (applyRegion_sameReadRegion lat lon). repeat split; congruence.
Qed.

End ConstraintsMore.

Section ConstraintsMoreScenarios.

Import RegionDepth Lifecycle.

Open Scope float_scope.

(** The lookup of S6 is reachable, retains two regions and is initialized. *)
Lemma reachable_lookup_invariant_witness :
  isInitialized Scenarios.S6_lookup = true
  /\ (0 < regionCount Scenarios.S6_lookup)%nat.
Proof.
  pose proof (reachable_lookup_invariant Scenarios.fromString_digits
                Scenarios.S6_lookup
                (reach_init _ _ (reach_setConfig _ _ reach_new))) as [H _].
  split; [reflexivity | apply H; reflexivity].
Defined.

(** "west" and "east" are disjoint: either order gives "west" at (5, 5). *)
Lemma getConstraints_order_irrelevant_where_regions_are_disjoint_witness :
  getConstraints Scenarios.fromString_digits
    (MoreScenarios.lookupOf [MoreScenarios.regionEast; MoreScenarios.regionWest]) 5 5
  = getConstraints Scenarios.fromString_digits
      (MoreScenarios.lookupOf [MoreScenarios.regionWest; MoreScenarios.regionEast]) 5 5
  /\ RegionDepthConstraints.regionName
       (getConstraints Scenarios.fromString_digits
          (MoreScenarios.lookupOf [MoreScenarios.regionEast; MoreScenarios.regionWest])
          5 5) = "west".
Proof.
  split; [| reflexivity].
  apply getConstraints_order_irrelevant_where_regions_are_disjoint.
  - reflexivity.
  - apply perm_swap.
  - intros r1 r2 [<- | [<- | []]] [<- | [<- | []]] H1 H2;
      try reflexivity; vm_compute in H1, H2; discriminate.
Defined.

(** The broken region and its stand-in with other attributes read alike. *)
Lemma getConstraints_reads_only_witness :
  getConstraints Scenarios.fromString_digits
    (MoreScenarios.lookupOf [MoreScenarios.regionBroken]) 5 5
  = getConstraints Scenarios.fromString_digits
      (MoreScenarios.lookupOf [MoreScenarios.regionBroken_stripped]) 5 5
  /\ RegionDepthConstraints.hasMaxDepth
       (getConstraints Scenarios.fromString_digits
          (MoreScenarios.lookupOf [MoreScenarios.regionBroken]) 5 5) = false.
Proof.
  split; [| vm_compute; reflexivity].
  apply getConstraints_reads_only; try reflexivity.
  constructor; [| constructor].
  repeat split; vm_compute; reflexivity.
Defined.

End ConstraintsMoreScenarios.

(** * Further properties of the catalog *)

Section CatalogMore.

Import DepthPhases.

(** X15: the two catalog lookups agree with the table: [isDepthPhase]
    holds exactly for the depth phases of the table, [getReferencePhase]
    gives for each of them the reference phase of its row (no depth phase
    has two rows), and for every other string it gives "P". *)
Theorem catalog_lookups_agree_with_table (phase : string) :
  (isDepthPhase phase = true
   <-> In phase (map DepthPhaseInfo.depthPhase depthPhaseTable))
  /\ (forall info, In info depthPhaseTable ->
        DepthPhaseInfo.depthPhase info = phase ->
        getReferencePhase phase = DepthPhaseInfo.referencePhase info)
  /\ (isDepthPhase phase = false -> getReferencePhase phase = "P").
Proof.
  split; [| split].
  - split.
    + unfold isDepthPhase, depthPhaseTable. cbn.
      repeat match goal with
             | |- context [String.eqb phase ?b] =>
                 let E := fresh "E" in
                 destruct (String.eqb phase b) eqn:E;
                 [apply String.eqb_eq in E; auto 10 |]
             end.
      discriminate.
    + cbn. intros H.
      repeat (destruct H as [<- | H]; [reflexivity |]). destruct H.
  - intros info H E. cbn in H.
    repeat (destruct H as [<- | H]; [cbn in E; subst phase; reflexivity |]).
    destruct H.
  - unfold isDepthPhase, getReferencePhase, depthPhaseTable. cbn.
    repeat match goal with
           | |- context [String.eqb phase ?b] =>
               destruct (String.eqb phase b); [discriminate |]
           end.
    reflexivity.
Qed.

End CatalogMore.

(** * The Ms(20) processors *)

(** ** More of the order on doubles *)

Section PrimOrderMore.

Local Open Scope float_scope.

Lemma ltb_not_nan_l x y : (x <? y) = true -> Prim2SF x <> S754_nan.
Proof. intros H. exact (leb_not_nan_l _ _ (ltb_leb _ _ H)). Qed.

Lemma ltb_not_nan_r x y : (x <? y) = true -> Prim2SF y <> S754_nan.
Proof. intros H. exact (leb_not_nan_r _ _ (ltb_leb _ _ H)). Qed.

Lemma ltb_leb_trans x y z :
  (x <? y) = true -> (y <=? z) = true -> (x <? z) = true.
Proof.
  intros Hxy Hyz. destruct (x <? z) eqn:E; [reflexivity |].
  assert (Hzx : (z <=? x) = true).
  { apply ltb_false_leb; [exact (ltb_not_nan_l _ _ Hxy) | | exact E].
    exact (leb_not_nan_r _ _ Hyz). }
  pose proof (leb_ltb_false _ _ (leb_trans _ _ _ Hyz Hzx)). congruence.
Qed.

Lemma leb_ltb_trans x y z :
  (x <=? y) = true -> (y <? z) = true -> (x <? z) = true.
Proof.
  intros Hxy Hyz. destruct (x <? z) eqn:E; [reflexivity |].
  assert (Hzx : (z <=? x) = true).
  { apply ltb_false_leb; [exact (leb_not_nan_l _ _ Hxy) | | exact E].
    exact (ltb_not_nan_r _ _ Hyz). }
  pose proof (leb_ltb_false _ _ (leb_trans _ _ _ Hzx Hxy)). congruence.
Qed.

Lemma is_nan_Prim2SF x : is_nan x = true -> Prim2SF x = S754_nan.
Proof.
  unfold is_nan. rewrite FloatAxioms.eqb_spec. unfold SFeqb. intros H.
  destruct (Prim2SF x) as [s | s | | s m e] eqn:E; [| | reflexivity |];
    rewrite SFcompare_refl in H by discriminate; discriminate.
Qed.

Lemma nan_ltb_l x y : Prim2SF x = S754_nan -> (x <? y) = false.
Proof. intros H. rewrite ltb_spec, H. reflexivity. Qed.

Lemma nan_ltb_r x y : Prim2SF y = S754_nan -> (x <? y) = false.
Proof. intros H. rewrite ltb_spec, H. now destruct (Prim2SF x) as [[] | [] | | [] ? ?]. Qed.

Lemma nan_leb_l x y : Prim2SF x = S754_nan -> (x <=? y) = false.
Proof. intros H. rewrite leb_spec, H. reflexivity. Qed.

End PrimOrderMore.

(** ** [MagnitudeProcessor_Ms_20] *)

Section Magnitude.

Import MagnitudeProcessor_Ms_20.

Local Open Scope float_scope.

Variable MagnitudeProcessor_setup : Settings -> bool.
Variable type : string.
Variable convertAmplitude : float -> string -> string -> option float.
Variable log10 : float -> float.

(** X16: widening the configured ranges never turns an accepted
    measurement into a rejected one: when [computeMagnitude] returns OK
    under one processor, it returns OK with the same value under every
    processor whose period and distance ranges contain the first one's and
    whose maximum depth is at least as large. *)
Theorem computeMagnitude_wider_ranges_accept_more
    (m m' : t) (amplitude : float) (unit : string)
    (period delta depth value : float) :
  (lowPer m' <=? lowPer m) = true ->
  (upPer m <=? upPer m') = true ->
  (minDistanceDeg m' <=? minDistanceDeg m) = true ->
  (maxDistanceDeg m <=? maxDistanceDeg m') = true ->
  (maxDepthKm m <=? maxDepthKm m') = true ->
  fst (computeMagnitude convertAmplitude log10 m amplitude unit
         period delta depth value) = OK ->
  computeMagnitude convertAmplitude log10 m' amplitude unit
    period delta depth value
  = computeMagnitude convertAmplitude log10 m amplitude unit
      period delta depth value.
Proof.
  intros Hlow Hup Hmin Hmax Hdepth. unfold computeMagnitude.
  destruct (amplitude <=? 0); [reflexivity |].
  destruct (period <? lowPer m) eqn:P1; [discriminate |].
  destruct (upPer m <? period) eqn:P2; [discriminate |]. cbn [orb].
  destruct (delta <? minDistanceDeg m) eqn:D1; [discriminate |].
  destruct (maxDistanceDeg m <? delta) eqn:D2; [discriminate |]. cbn [orb].
  set (d := if depth <? 0 then 0 else depth).
  destruct (maxDepthKm m <? d) eqn:Z1; [discriminate |].
  intros _.
  replace (period <? lowPer m') with false.
  2: { symmetry. destruct (period <? lowPer m') eqn:E; [| reflexivity].
       rewrite (ltb_leb_trans _ _ _ E Hlow) in P1. discriminate. }
  replace (upPer m' <? period) with false.
  2: { symmetry. destruct (upPer m' <? period) eqn:E; [| reflexivity].
       rewrite (leb_ltb_trans _ _ _ Hup E) in P2. discriminate. }
  replace (delta <? minDistanceDeg m') with false.
  2: { symmetry. destruct (delta <? minDistanceDeg m') eqn:E; [| reflexivity].
       rewrite (ltb_leb_trans _ _ _ E Hmin) in D1. discriminate. }
  replace (maxDistanceDeg m' <? delta) with false.
  2: { symmetry. destruct (maxDistanceDeg m' <? delta) eqn:E; [| reflexivity].
       rewrite (leb_ltb_trans _ _ _ Hmax E) in D2. discriminate. }
  replace (maxDepthKm m' <? d) with false.
  2: { symmetry. destruct (maxDepthKm m' <? d) eqn:E; [| reflexivity].
       rewrite (leb_ltb_trans _ _ _ Hdepth E) in Z1. discriminate. }
  reflexivity.
Qed.

(** X17: the range checks of [computeMagnitude] let NaN through: a NaN
    amplitude is never reported as AmplitudeOutOfRange, a NaN period never
    as PeriodOutOfRange, a NaN distance never as DistanceOutOfRange and a
    NaN depth never as DepthOutOfRange; with all four NaN the status is OK
    whenever the unit converts, under every configuration. *)
Theorem computeMagnitude_nan_passes_the_range_checks
    (m : t) (amplitude : float) (unit : string)
    (period delta depth value : float) :
  let r := computeMagnitude convertAmplitude log10 m amplitude unit
             period delta depth value in
  (is_nan amplitude = true -> fst r <> AmplitudeOutOfRange)
  /\ (is_nan period = true -> fst r <> PeriodOutOfRange)
  /\ (is_nan delta = true -> fst r <> DistanceOutOfRange)
  /\ (is_nan depth = true -> fst r <> DepthOutOfRange)
  /\ (is_nan amplitude = true -> is_nan period = true ->
      is_nan delta = true -> is_nan depth = true ->
      forall converted,
        convertAmplitude amplitude unit ExpectedAmplitudeUnit = Some converted ->
        r = (OK, log10 (converted / period) + 1.66 * log10 delta + 0.3)).
Proof.
  cbv zeta. unfold computeMagnitude.
  split; [| split; [| split; [| split]]].
  - intros H%is_nan_Prim2SF. rewrite (nan_leb_l _ _ H).
    repeat match goal with
           | |- context [if ?b then _ else _] => destruct b
           | |- context [match ?o with Some _ => _ | None => _ end] => destruct o
           end; discriminate.
  - intros H%is_nan_Prim2SF.
    rewrite (nan_ltb_l _ _ H), (nan_ltb_r _ _ H). cbn [orb].
    repeat match goal with
           | |- context [if ?b then _ else _] => destruct b
           | |- context [match ?o with Some _ => _ | None => _ end] => destruct o
           end; discriminate.
  - intros H%is_nan_Prim2SF.
    rewrite (nan_ltb_l _ _ H), (nan_ltb_r _ _ H). cbn [orb].
    repeat match goal with
           | |- context [if ?b then _ else _] => destruct b
           | |- context [match ?o with Some _ => _ | None => _ end] => destruct o
           end; discriminate.
  - intros H%is_nan_Prim2SF.
    rewrite (nan_ltb_l depth 0 H), (nan_ltb_r _ _ H).
    repeat match goal with
           | |- context [if ?b then _ else _] => destruct b
           | |- context [match ?o with Some _ => _ | None => _ end] => destruct o
           end; discriminate.
  - intros Ha%is_nan_Prim2SF Hp%is_nan_Prim2SF Hd%is_nan_Prim2SF
      Hz%is_nan_Prim2SF converted Hc.
    rewrite (nan_leb_l _ _ Ha), (nan_ltb_l period _ Hp), (nan_ltb_r _ period Hp),
      (nan_ltb_l delta _ Hd), (nan_ltb_r _ delta Hd), (nan_ltb_l depth 0 Hz),
      (nan_ltb_r _ depth Hz), Hc.
    reflexivity.
Qed.

(** X18: the depth only gates the result: a negative depth is treated as
    depth 0, and two calls that differ in the depth alone give the same
    status and value unless one of them is rejected with DepthOutOfRange. *)
Theorem computeMagnitude_depth_only_gates
    (m : t) (amplitude : float) (unit : string)
    (period delta depth depth' value : float) :
  let r := computeMagnitude convertAmplitude log10 m amplitude unit
             period delta depth value in
  let r' := computeMagnitude convertAmplitude log10 m amplitude unit
              period delta depth' value in
  ((depth <? 0) = true ->
     r = computeMagnitude convertAmplitude log10 m amplitude unit
           period delta 0 value)
  /\ (r = r' \/ fst r = DepthOutOfRange \/ fst r' = DepthOutOfRange).
Proof.
  cbv zeta. unfold computeMagnitude. split.
  - intros ->. replace (0 <? 0) with false by reflexivity. reflexivity.
  - destruct (amplitude <=? 0); [now left |].
    destruct ((period <? lowPer m) || (upPer m <? period)); [now left |].
    destruct ((delta <? minDistanceDeg m) || (maxDistanceDeg m <? delta));
      [now left |].
    destruct (maxDepthKm m <? (if depth <? 0 then 0 else depth));
      [right; now left |].
    destruct (maxDepthKm m <? (if depth' <? 0 then 0 else depth'));
      [right; now right |].
    now left.
Qed.

(** X19: an inverted period range rejects every period but NaN: when
    cfg.upPer < cfg.lowPer and the amplitude passes its check, each period
    that is a number is reported as PeriodOutOfRange, whatever the other
    arguments are; likewise an inverted distance range rejects every
    distance that is a number once the period has passed. *)
Theorem computeMagnitude_inverted_range_rejects
    (m : t) (amplitude : float) (unit : string)
    (period delta depth value : float) :
  let r := computeMagnitude convertAmplitude log10 m amplitude unit
             period delta depth value in
  ((upPer m <? lowPer m) = true -> is_nan period = false ->
     fst r = AmplitudeOutOfRange \/ fst r = PeriodOutOfRange)
  /\ ((maxDistanceDeg m <? minDistanceDeg m) = true -> is_nan delta = false ->
      fst r = AmplitudeOutOfRange \/ fst r = PeriodOutOfRange
      \/ fst r = DistanceOutOfRange).
Proof.
  assert (Hgap : forall lo hi x,
             (hi <? lo) = true -> is_nan x = false ->
             (x <? lo) || (hi <? x) = true).
  { intros lo hi x Hinv Hx.
    destruct (x <? lo) eqn:E1; [reflexivity |].
    destruct (hi <? x) eqn:E2; [reflexivity |]. exfalso.
    assert (Nx : Prim2SF x <> S754_nan).
    { intros N. unfold is_nan in Hx. rewrite FloatAxioms.eqb_spec, N in Hx. discriminate. }
    assert (H1 : (lo <=? x) = true)
      by (apply ltb_false_leb; [exact Nx | exact (ltb_not_nan_r _ _ Hinv) | exact E1]).
    assert (H2 : (x <=? hi) = true)
      by (apply ltb_false_leb; [exact (ltb_not_nan_l _ _ Hinv) | exact Nx | exact E2]).
    pose proof (leb_ltb_false _ _ (leb_trans _ _ _ H1 H2)). congruence. }
  cbv zeta. unfold computeMagnitude. split.
  - intros Hinv Hx. destruct (amplitude <=? 0); [now left |].
    rewrite (Hgap _ _ _ Hinv Hx). now right.
  - intros Hinv Hx. destruct (amplitude <=? 0); [now left |].
    destruct ((period <? lowPer m) || (upPer m <? period)); [right; now left |].
    rewrite (Hgap _ _ _ Hinv Hx). right; now right.
Qed.

(** X20: [setup] fails, leaving the processor untouched, exactly when the
    setup of the base class fails; otherwise each of the five members is
    the value of its deprecated key [<type>.<name>] when that is
    configured, else the value of its current key
    [magnitudes.<type>.<name>] when that is configured, else the IASPEI
    default, whatever the member held before. *)
Theorem setup_deprecated_key_overrides (settings : Settings) (m : t) :
  let r := setup MagnitudeProcessor_setup type settings m in
  let pick (deprecated current : string) (default : float) :=
    match getDouble settings (type ++ deprecated),
          getDouble settings ("magnitudes." ++ type ++ current) with
    | Some value, _ => value
    | None, Some value => value
    | None, None => default
    end in
  (MagnitudeProcessor_setup settings = false -> r = (false, m))
  /\ (MagnitudeProcessor_setup settings = true ->
      fst r = true
      /\ lowPer (snd r) = pick ".lowerPeriod" ".lowerPeriod" 18
      /\ upPer (snd r) = pick ".upperPeriod" ".upperPeriod" 22
      /\ minDistanceDeg (snd r) = pick ".minimumDistance" ".minDist" 20
      /\ maxDistanceDeg (snd r) = pick ".maximumDistance" ".maxDist" 160
      /\ maxDepthKm (snd r) = pick ".maximumDepth" ".maxDepth" 100).
Proof.
  cbv zeta. unfold setup, tryGetDouble. split; intros ->; cbn [negb fst snd];
    [reflexivity |].
  cbn [lowPer upPer minDistanceDeg maxDistanceDeg maxDepthKm].
  repeat split;
    repeat match goal with
           | |- context [getDouble settings ?k] => destruct (getDouble settings k)
           end; reflexivity.
Qed.

End Magnitude.

Section MagnitudeScenarios.

Import MagnitudeProcessor_Ms_20.

Local Open Scope float_scope.

(** A 20 s wave of 1000 nm at 50 degrees and 10 km depth is accepted under
    the IASPEI ranges, hence under the wider ones, with the same value. *)
Lemma computeMagnitude_wider_ranges_accept_more_witness :
  computeMagnitude MoreScenarios.convertAmplitude_same MoreScenarios.log10_standin
    MoreScenarios.wideRanges 1000 "nm" 20 50 10 0
  = computeMagnitude MoreScenarios.convertAmplitude_same MoreScenarios.log10_standin
      MoreScenarios.iaspeiRanges 1000 "nm" 20 50 10 0
  /\ fst (computeMagnitude MoreScenarios.convertAmplitude_same
            MoreScenarios.log10_standin MoreScenarios.iaspeiRanges
            1000 "nm" 20 50 10 0) = OK.
Proof.
  split; [| reflexivity].
  apply computeMagnitude_wider_ranges_accept_more; reflexivity.
Defined.

(** Four NaN arguments and the expected unit: the status is OK. *)
Lemma computeMagnitude_nan_passes_the_range_checks_witness :
  fst (computeMagnitude MoreScenarios.convertAmplitude_same
         MoreScenarios.log10_standin MoreScenarios.iaspeiRanges
         nan "nm" nan nan nan 0) = OK.
Proof.
  pose proof (computeMagnitude_nan_passes_the_range_checks
                MoreScenarios.convertAmplitude_same MoreScenarios.log10_standin
                MoreScenarios.iaspeiRanges nan "nm" nan nan nan 0)
    as (_ & _ & _ & _ & H).
  rewrite (H eq_refl eq_refl eq_refl eq_refl nan eq_refl). reflexivity.
Defined.

(** With the period range 22 to 18 s, the period 20 s is out of range. *)
Lemma computeMagnitude_inverted_range_rejects_witness :
  fst (computeMagnitude MoreScenarios.convertAmplitude_same
         MoreScenarios.log10_standin MoreScenarios.invertedPeriods
         1000 "nm" 20 50 10 0) = AmplitudeOutOfRange
  \/ fst (computeMagnitude MoreScenarios.convertAmplitude_same
            MoreScenarios.log10_standin MoreScenarios.invertedPeriods
            1000 "nm" 20 50 10 0) = PeriodOutOfRange.
Proof.
  apply (computeMagnitude_inverted_range_rejects
           MoreScenarios.convertAmplitude_same MoreScenarios.log10_standin
           MoreScenarios.invertedPeriods 1000 "nm" 20 50 10 0); reflexivity.
Defined.

(** The lower period is configured under both keys (15 s current, 17 s
    deprecated) and the maximum depth under the current key only. *)
Lemma setup_deprecated_key_overrides_witness :
  lowPer (snd (setup (fun _ => true) "Ms_20" MoreScenarios.bothKeys
                 MoreScenarios.wideRanges)) = 17
  /\ maxDepthKm (snd (setup (fun _ => true) "Ms_20" MoreScenarios.bothKeys
                        MoreScenarios.wideRanges)) = 60
  /\ upPer (snd (setup (fun _ => true) "Ms_20" MoreScenarios.bothKeys
                   MoreScenarios.wideRanges)) = 22.
Proof.
  pose proof (setup_deprecated_key_overrides (fun _ => true) "Ms_20"
                MoreScenarios.bothKeys MoreScenarios.wideRanges) as [_ H].
  destruct (H eq_refl) as (_ & H1 & H2 & _ & _ & H5).
  rewrite H1, H2, H5. repeat split.
Defined.

End MagnitudeScenarios.

(** ** [AmplitudeProcessor_Ms_20] *)

Section Amplitude.

Import AmplitudeProcessor_Ms_20.

Local Open Scope float_scope.

Lemma not_nan_Prim2SF x : is_nan x = false -> Prim2SF x <> S754_nan.
Proof.
  unfold is_nan. rewrite FloatAxioms.eqb_spec. intros H N.
  rewrite N in H. discriminate.
Qed.

Lemma nan_mul_l x y : Prim2SF x = S754_nan -> Prim2SF (x * y) = S754_nan.
Proof. intros H. rewrite mul_spec, H. reflexivity. Qed.

Lemma nan_mul_r x y : Prim2SF y = S754_nan -> Prim2SF (x * y) = S754_nan.
Proof.
  intros H. rewrite mul_spec, H. now destruct (Prim2SF x) as [[] | [] | | [] ? ?].
Qed.

Lemma nan_div_l x y : Prim2SF x = S754_nan -> Prim2SF (x / y) = S754_nan.
Proof. intros H. rewrite div_spec, H. reflexivity. Qed.

Lemma nan_add_l x y : Prim2SF x = S754_nan -> Prim2SF (x + y) = S754_nan.
Proof. intros H. rewrite add_spec, H. reflexivity. Qed.

(** X21: the time window never exceeds the end of the signal window: for
    every distance, [timeWindowLength] is at most [_config.signalEnd] when
    that is a number, and it is [_config.signalEnd] itself when the distance
    is a NaN. *)
Theorem timeWindowLength_is_capped (signalEnd distance_deg : float) :
  (is_nan signalEnd = false ->
     (timeWindowLength signalEnd distance_deg <=? signalEnd) = true)
  /\ (is_nan distance_deg = true ->
      timeWindowLength signalEnd distance_deg = signalEnd).
Proof.
  unfold timeWindowLength. split.
  - intros H%not_nan_Prim2SF.
    destruct (_ <? signalEnd) eqn:E; [now apply ltb_leb |].
    rewrite leb_spec. now apply SFleb_refl.
  - intros H%is_nan_Prim2SF.
    rewrite nan_ltb_l; [reflexivity |].
    now apply nan_add_l, nan_div_l, nan_mul_l.
Qed.

Variable find_absmax : Z -> list float -> Z -> Z -> float -> Z.

Lemma scanDown_all cond f : forall fuel ip,
  ip = (Z.of_nat fuel - 1)%Z ->
  (forall i, (0 <= i <= ip)%Z -> cond (sample f i) = true) ->
  scanDown cond f fuel ip = (-1)%Z.
Proof.
  induction fuel as [| fuel IH]; intros ip E H; simpl scanDown.
  - lia.
  - rewrite (H ip) by lia. replace (0 <=? ip)%Z with true by (symmetry; apply Z.leb_le; lia).
    cbn [andb]. apply IH; [lia |]. intros i Hi. apply H. lia.
Qed.

Lemma scanUp_all cond n f : forall fuel i,
  i = (n - Z.of_nat fuel)%Z ->
  (forall j, (i <= j < n)%Z -> cond (sample f j) = true) ->
  scanUp cond n f fuel i = n.
Proof.
  induction fuel as [| fuel IH]; intros i E H; simpl scanUp.
  - lia.
  - rewrite (H i) by lia. replace (i <? n)%Z with true by (symmetry; apply Z.ltb_lt; lia).
    cbn [andb]. apply IH; [lia |]. intros j Hj. apply H. lia.
Qed.

(** X22: on a signal that never changes sign against the peak sample (the
    product of each sample less the offset with [f[i0]] is at least 0),
    [measure_period] finds no zero crossing: it returns false, leaves
    [*per] as it was and sets [*std] to 0, whatever [find_absmax] is. *)
Theorem measure_period_without_zero_crossing
    (n : Z) (f : list float) (i0 : Z) (offset per std : float) :
  n = Z.of_nat (length f) ->
  (0 <= i0 < n)%Z ->
  (forall i, (0 <= i < n)%Z ->
     (0 <=? (sample f i - offset) * sample f i0) = true) ->
  measure_period find_absmax n f i0 offset per std = (false, per, 0).
Proof.
  intros _ Hi0 Hsign. unfold measure_period.
  rewrite (scanDown_all (fun x => 0 <=? (x - offset) * sample f i0) f
             (Z.to_nat (i0 + 1)) i0)
    by (try lia; intros i Hi; apply Hsign; lia).
  rewrite (scanUp_all (fun x => 0 <=? (x - offset) * sample f i0) n f
             (Z.to_nat (n - i0)) i0)
    by (try lia; intros i Hi; apply Hsign; lia).
  rewrite (Z.sub_diag n).
  change (Z.to_nat (-1 + 1)) with 0%nat. change (Z.to_nat 0) with 0%nat.
  cbn [scanDown scanUp]. rewrite !Z.ltb_irrefl.
  reflexivity.
Qed.

(** X23: a NaN at the peak sample is not noticed: every comparison of the
    four loops is then false, so all four indices stay at [i0], the three
    estimates are all taken with weight 4, and [measure_period] returns
    true with a period built from the two answers of [find_absmax] alone. *)
Theorem measure_period_nan_peak_reports_success
    (n : Z) (f : list float) (i0 : Z) (offset per std : float) :
  n = Z.of_nat (length f) ->
  (0 <= i0 < n)%Z ->
  is_nan (sample f i0) = true ->
  let d1 := double_of_int (i0 - find_absmax n f i0 i0 offset) in
  let d2 := double_of_int (find_absmax n f i0 i0 offset - i0) in
  let r := measure_period find_absmax n f i0 offset per std in
  fst (fst r) = true
  /\ snd (fst r) = 2 * (0 + 0.5 * 0 + d1 + 0 + 0.5 * 0 + d2) / 4.
Proof.
  intros _ Hi0 Hnan%is_nan_Prim2SF. cbv zeta. unfold measure_period.
  assert (Hge : forall x, (0 <=? (x - offset) * sample f i0) = false).
  { intros x. rewrite leb_spec, (nan_mul_r _ _ Hnan).
    now destruct (Prim2SF 0) as [[] | [] | | [] ? ?]. }
  assert (Hlt : forall x, ((x - offset) * sample f i0 <? 0) = false).
  { intros x. apply nan_ltb_l, nan_mul_r, Hnan. }
  destruct (Z.to_nat (i0 + 1)) as [| k] eqn:Ek; [lia |].
  destruct (Z.to_nat (n - i0)) as [| k'] eqn:Ek'; [lia |].
  cbn [scanDown scanUp]. rewrite !Hge, !andb_false_r.
  rewrite Ek, Ek'. cbn [scanDown scanUp]. rewrite !Hlt, !andb_false_r.
  replace (0 <=? i0)%Z with true by (symmetry; apply Z.leb_le; lia).
  replace (i0 <? n)%Z with true by (symmetry; apply Z.ltb_lt; lia).
  cbn [andb]. rewrite Z.sub_diag.
  change (double_of_int 0) with 0.
  split; reflexivity.
Qed.

End Amplitude.

Section AmplitudeScenarios.

Import AmplitudeProcessor_Ms_20.

Local Open Scope float_scope.

(** Five positive samples about offset 0: no zero crossing. *)
Lemma measure_period_without_zero_crossing_witness :
  measure_period MoreScenarios.find_absmax_first 5 [1; 2; 3; 2; 1] 2 0 (-1) 7
  = (false, -1, 0).
Proof.
  apply measure_period_without_zero_crossing.
  - reflexivity.
  - lia.
  - intros i Hi.
    assert (H : (i = 0 \/ i = 1 \/ i = 2 \/ i = 3 \/ i = 4)%Z) by lia.
    destruct H as [-> | [-> | [-> | [-> | ->]]]]; reflexivity.
Defined.

(** A NaN in the middle of five samples. *)
Lemma measure_period_nan_peak_reports_success_witness :
  fst (fst (measure_period MoreScenarios.find_absmax_first 5 [1; 2; nan; 2; 1]
              2 0 (-1) 7)) = true.
Proof.
  apply measure_period_nan_peak_reports_success; [reflexivity | lia | reflexivity].
Defined.

(** At 150 degrees the window of 4795 s is cut to the 3600 s of the
    constructors. *)
Lemma timeWindowLength_is_capped_witness :
  (timeWindowLength 3600 150 <=? 3600) = true
  /\ timeWindowLength 3600 nan = 3600.
Proof.
  split; apply timeWindowLength_is_capped; reflexivity.
Defined.

End AmplitudeScenarios.
